(** * AI-REAL-CHAT: the chat relay of [server.js], embedded and verified

    The development follows the server source: the two process-wide sets
    [connectedUsers] and [typingUsers], the per-socket handlers registered in
    [io.on('connection')], the SQLite table [messages] and the HTTP route
    [POST /api/ai-chat].  Every handler is a function from the server state to
    the new state and the list of actions it performs (SQL statements, emitted
    events, HTTP responses), in the order the source performs them. *)

From Stdlib Require Import ZArith Ascii String List Bool Lia.
From Stdlib Require OrderedTypeEx.
From stdpp Require Import base decidable gmap strings list sorting.

Open Scope string_scope.
Open Scope list_scope.
Open Scope Z_scope.

#[local] Set Warnings "-clear-no-such-hyp".

(** ** JavaScript values and strings

    A JavaScript string is a sequence of UTF-16 code units; a Rocq [string]
    stands for one whose code units are below 256, one [ascii] per unit, so
    that [String.length] is [.length]. *)
Module Js.

Inductive Value :=
| Undefined
| Null
| Bool (b : bool)
| Num (n : Z)
| Str (s : string)
| Obj.

(** [typeof v === 'string'] *)
Definition is_string (v : Value) : bool :=
  match v with Str _ => true | _ => false end.

(** ToBoolean: what [if (v)], [!v] and [v || w] test. *)
Definition truthy (v : Value) : bool :=
  match v with
  | Undefined | Null => false
  | Bool b => b
  | Num n => negb (n =? 0)
  | Str s => negb (String.eqb s "")
  | Obj => true
  end.

(** ToBoolean of a string: only the empty string is falsy. *)
Definition nonempty (s : string) : bool := negb (String.eqb s "").

(** [s.slice(0, n)] for [0 <= n]. *)
Fixpoint slice0 (n : nat) (s : string) : string :=
  match n, s with
  | O, _ => ""
  | S _, EmptyString => ""
  | S k, String c r => String c (slice0 k r)
  end.

(** The code units [String.prototype.trim] strips, below 256: TAB, LF, VT,
    FF, CR, SP and NBSP. *)
Definition is_space (c : ascii) : bool :=
  let n := nat_of_ascii c in
  ((9 <=? n)%nat && (n <=? 13)%nat) || (n =? 32)%nat || (n =? 160)%nat.

Fixpoint all_space (s : string) : bool :=
  match s with
  | EmptyString => true
  | String c r => is_space c && all_space r
  end.

(** [!s || !s.trim()]: the string is empty once trimmed. *)
Definition blank (s : string) : bool := all_space s.

End Js.

(** ** Dates

    [new Date(v)] has a time value in milliseconds since the epoch, or is an
    Invalid Date.  The payload of a [message] event carries what the client
    declared; [Millis t] is a number [t], or a date string that parses to [t],
    and [Unparsable] is anything [new Date] turns into an Invalid Date
    (undefined, NaN, a string [Date.parse] refuses). *)
Module JsDate.

Inductive Input :=
| Millis (t : Z)
| Unparsable.

(** A Date object: its time value, or [None] for an Invalid Date. *)
Definition Date : Type := option Z.

(** TimeClip: time values beyond 8.64e15 ms are invalid. *)
Definition maxTime : Z := 8640000000000000.

Definition new (v : Input) : Date :=
  match v with
  | Millis t => if (Z.abs t <=? maxTime) then Some t else None
  | Unparsable => None
  end.

Definition msPerDay : Z := 86400000.

(** Proleptic Gregorian date of a day number (days since 1970-01-01). *)
Definition civil (day : Z) : Z * Z * Z :=
  let z := day + 719468 in
  let era := z / 146097 in
  let doe := z - era * 146097 in
  let yoe := (doe - doe / 1460 + doe / 36524 - doe / 146096) / 365 in
  let doy := doe - (365 * yoe + yoe / 4 - yoe / 100) in
  let mp := (5 * doy + 2) / 153 in
  let d := doy - (153 * mp + 2) / 5 + 1 in
  let m := if mp <? 10 then mp + 3 else mp - 9 in
  let y := yoe + era * 400 + (if m <=? 2 then 1 else 0) in
  (y, m, d).

Definition digit (n : Z) : ascii := ascii_of_nat (48 + Z.to_nat (n mod 10)).

(** [n] in decimal, left-padded with zeros to [w] digits. *)
Fixpoint pad (w : nat) (n : Z) (acc : string) : string :=
  match w with
  | O => acc
  | S k => pad k (n / 10) (String (digit n) acc)
  end.

(** Years 0 to 9999 print with four digits, the others with a sign and six. *)
Definition year (y : Z) : string :=
  if (0 <=? y) && (y <=? 9999) then pad 4 y ""
  else if 0 <=? y then "+" +:+ pad 6 y ""
  else "-" +:+ pad 6 (- y) "".

(** The text of [toISOString] for a valid time value. *)
Definition iso (t : Z) : string :=
  let '(y, m, d) := civil (t / msPerDay) in
  let r := t mod msPerDay in
  year y +:+ "-" +:+ pad 2 m "" +:+ "-" +:+ pad 2 d "" +:+ "T"
    +:+ pad 2 (r / 3600000) "" +:+ ":" +:+ pad 2 (r / 60000 mod 60) "" +:+ ":"
    +:+ pad 2 (r / 1000 mod 60) "" +:+ "." +:+ pad 3 (r mod 1000) "" +:+ "Z".

(** [d.toISOString()]: throws a RangeError on an Invalid Date ([None]). *)
Definition toISOString (d : Date) : option string :=
  match d with
  | Some t => Some (iso t)
  | None => None
  end.

End JsDate.

(** ** The [messages] table

    [id INTEGER PRIMARY KEY AUTOINCREMENT, username TEXT NOT NULL,
     text TEXT NOT NULL, timestamp DATETIME].  Both INSERT statements of the
    server give the timestamp as the text of [toISOString]; it is no number, so
    SQLite stores it as TEXT and compares it bytewise. *)
Module Db.

Record Row := mkRow {
  id : Z;
  username : string;
  text : string;
  timestamp : string
}.

(** Rows in rowid order, and the AUTOINCREMENT counter (the largest id ever
    given; no statement of the server deletes a row). *)
Record Database := mkDatabase {
  messages : list Row;
  seq : Z
}.

Definition empty : Database := mkDatabase [] 0.

(** What the engine answers to the statements of one handler: whether
    [CREATE TABLE IF NOT EXISTS] fails, and whether the statement that
    follows it fails (database locked, disk full, ...). *)
Record Faults := mkFaults {
  schema_err : bool;
  stmt_err : bool
}.

Definition healthy : Faults := mkFaults false false.

(** [INSERT INTO messages (username, text, timestamp) VALUES (?, ?, ?)];
    the callback gets [err], or [this.lastID]. *)
Definition insert (fails : bool) (u t ts : string) (d : Database)
  : Database * option Z :=
  if fails then (d, None)
  else
    let i := seq d + 1 in
    (mkDatabase (messages d ++ [mkRow i u t ts]) i, Some i).

(** [ORDER BY timestamp DESC]: a row goes before the first row whose
    timestamp is not above its own.  (SQLite leaves the order of rows with
    the same timestamp open; here they keep their rowid order.) *)
Fixpoint place (r : Row) (l : list Row) : list Row :=
  match l with
  | [] => [r]
  | x :: l' =>
      if String.ltb (timestamp r) (timestamp x) then x :: place r l'
      else r :: l
  end.

Definition order_by_timestamp_desc (l : list Row) : list Row :=
  foldr place [] l.

(** [SELECT * FROM messages ORDER BY timestamp DESC LIMIT limit] *)
Definition recent (limit : nat) (d : Database) : list Row :=
  take limit (order_by_timestamp_desc (messages d)).

(** [db.all] of that query: the callback gets [err] ([None]) or the rows. *)
Definition all_recent (fails : bool) (limit : nat) (d : Database)
  : option (list Row) :=
  if fails then None else Some (recent limit d).

End Db.

(** ** Events and actions *)

(** What a client sends on its socket, with the payload fields the handlers
    destructure (strings, as the client script sends them). *)
Module Client.
Inductive Event :=
| userJoined (username : string)
| getMessageHistory
| message (username text : string) (timestamp : JsDate.Input)
| typing (username : string)
| stopTyping (username : string)
| ping
| userLeft (username : string)
| disconnect.
End Client.

(** What the server emits. *)
Module Relay.
Inductive Event :=
| userJoined (username : string)
| userCount (count : nat)
| messageHistory (rows : list Db.Row)
| message (id : Z) (username text : string) (timestamp : JsDate.Date)
| typing (username : string)
| stopTyping (username : string)
| pong
| userLeft (username : string)
| error (message : string).
End Relay.

(** [socket.emit], [socket.broadcast.emit] and [io.emit], for the socket [sid]
    whose handler runs. *)
Inductive Target :=
| Socket (sid : string)
| Broadcast (sid : string)
| Io.

Inductive Body :=
| reply (text : string)
| error (message : string).

Inductive Action :=
| Emit (to : Target) (ev : Relay.Event)
| CreateTable (err : bool)
| Insert (username text timestamp : string) (lastID : option Z)
| Select (limit : nat) (err : bool)
| Respond (status : nat) (body : Body)
| Uncaught.

(** The sockets an emission reaches, among the live ones. *)
Definition recipients (live : gset string) (to : Target) : gset string :=
  match to with
  | Socket sid => {[sid]} ∩ live
  | Broadcast sid => live ∖ {[sid]}
  | Io => live
  end.

Definition is_emit (a : Action) : bool :=
  match a with Emit _ _ => true | _ => false end.

Definition is_insert (a : Action) : bool :=
  match a with Insert _ _ _ _ => true | _ => false end.

(** The action is an emission that reaches the socket [x], when the live
    sockets are [live]. *)
Definition reaches (live : gset string) (a : Action) (x : string) : Prop :=
  match a with
  | Emit to _ => x ∈ recipients live to
  | _ => False
  end.

(** Nothing among the actions reaches a socket other than [sid], whoever is
    connected. *)
Definition sender_only (sid : string) (out : list Action) : Prop :=
  ∀ live a x, a ∈ out → reaches live a x → x = sid.

(** ** The server state *)
Record Server := mkServer {
  connectedUsers : gset string;
  typingUsers : gset string;
  (** the live sockets, each with its [socket.username] ([None]: undefined) *)
  sockets : gmap string (option string);
  db : Db.Database
}.

Definition init : Server := mkServer ∅ ∅ ∅ Db.empty.

Definition set_connected (c : gset string) (s : Server) : Server :=
  mkServer c (typingUsers s) (sockets s) (db s).
Definition set_typing (t : gset string) (s : Server) : Server :=
  mkServer (connectedUsers s) t (sockets s) (db s).
Definition set_sockets (m : gmap string (option string)) (s : Server) : Server :=
  mkServer (connectedUsers s) (typingUsers s) m (db s).
Definition set_db (d : Db.Database) (s : Server) : Server :=
  mkServer (connectedUsers s) (typingUsers s) (sockets s) d.

(** The process exits on an uncaught exception (no handler is installed for
    it): every socket is closed and both sets are gone with the memory of the
    process; the database file stays.  It is also the state a process started
    again on that file begins in. *)
Definition exit (s : Server) : Server := mkServer ∅ ∅ ∅ (db s).

(** [typingUsers.has(u)] and the like *)
Definition has (u : string) (S : gset string) : bool := bool_decide (u ∈ S).

(** [io.on('connection')]: a new live socket, no username yet. *)
Definition connection (sid : string) (s : Server) : Server :=
  set_sockets (<[sid := None]> (sockets s)) s.

(** [socket.username] of a live socket. *)
Definition socket_username (sid : string) (s : Server) : option string :=
  match sockets s !! sid with
  | Some o => o
  | None => None
  end.

(** ** The socket handlers

    Each handler runs for the socket [sid] it was registered on.  A handler
    that talks to the database does so in callbacks; the model runs them to
    their end within the handler's step, with the answers [f] of the engine.
    [console.log] and [console.error] are left out. *)

(** [ensureSchema(callback)]: the statement runs, the error is logged, and the
    callback is called whatever the outcome. *)
Definition ensureSchema (f : Db.Faults) : list Action :=
  [CreateTable (Db.schema_err f)].

Definition on_userJoined (sid username : string) (s : Server)
  : Server * list Action :=
  let c := {[username]} ∪ connectedUsers s in
  (set_sockets (<[sid := Some username]> (sockets s)) (set_connected c s),
   [Emit (Broadcast sid) (Relay.userJoined username);
    Emit Io (Relay.userCount (size c))]).

(** The LIMIT of the history query. *)
Definition historyLimit : nat := 20.

Definition on_getMessageHistory (f : Db.Faults) (sid : string) (s : Server)
  : Server * list Action :=
  (s,
   ensureSchema f ++
   match Db.all_recent (Db.stmt_err f) historyLimit (db s) with
   | None =>
       [Select historyLimit true;
        Emit (Socket sid) (Relay.error "Failed to load message history")]
   | Some rows =>
       [Select historyLimit false;
        Emit (Socket sid) (Relay.messageHistory (reverse rows))]
   end).

(** The guard of the [message] handler:
    [!username || !text || username.length > 50 || text.length > 255]. *)
Definition invalid_message (username text : string) : bool :=
  negb (Js.nonempty username) || negb (Js.nonempty text)
  || (50 <? String.length username)%nat || (255 <? String.length text)%nat.

Definition on_message (f : Db.Faults) (sid username text : string)
    (timestamp : JsDate.Input) (s : Server) : Server * list Action :=
  if invalid_message username text then
    (s, [Emit (Socket sid) (Relay.error "Invalid message data")])
  else
    let date := JsDate.new timestamp in
    match JsDate.toISOString date with
    | Some ts =>
        match Db.insert (Db.stmt_err f) username text ts (db s) with
        | (d, None) =>
            (set_db d s,
             ensureSchema f ++
             [Insert username text ts None;
              Emit (Socket sid) (Relay.error "Failed to send message")])
        | (d, Some lastID) =>
            (set_db d s,
             ensureSchema f ++
             [Insert username text ts (Some lastID);
              Emit Io (Relay.message lastID username text date)])
        end
    | None =>
        (* the arguments of [db.run] are built inside the callback of
           ensureSchema: the RangeError of toISOString is thrown there, out of
           reach of the handler's try/catch, and the process exits *)
        (exit s, ensureSchema f ++ [Uncaught])
    end.

Definition on_typing (sid username : string) (s : Server)
  : Server * list Action :=
  if Js.nonempty username && negb (has username (typingUsers s)) then
    (set_typing ({[username]} ∪ typingUsers s) s,
     [Emit (Broadcast sid) (Relay.typing username)])
  else (s, []).

Definition on_stopTyping (sid username : string) (s : Server)
  : Server * list Action :=
  if Js.nonempty username && has username (typingUsers s) then
    (set_typing (typingUsers s ∖ {[username]}) s,
     [Emit (Broadcast sid) (Relay.stopTyping username)])
  else (s, []).

Definition on_ping (sid : string) (s : Server) : Server * list Action :=
  (s, [Emit (Socket sid) Relay.pong]).

(** The body shared by [userLeft] and [disconnect]: both sets lose the name,
    the others are told, everybody gets the count. *)
Definition leave (sid username : string) (s : Server) : Server * list Action :=
  let c := connectedUsers s ∖ {[username]} in
  (set_typing (typingUsers s ∖ {[username]}) (set_connected c s),
   [Emit (Broadcast sid) (Relay.userLeft username);
    Emit Io (Relay.userCount (size c))]).

Definition on_userLeft (sid username : string) (s : Server)
  : Server * list Action :=
  if Js.nonempty username then leave sid username s else (s, []).

(** [if (socket.username) { ... }]; the socket is live no more afterwards. *)
Definition on_disconnect (sid : string) (s : Server) : Server * list Action :=
  let '(s', out) :=
    match socket_username sid s with
    | Some u => if Js.nonempty u then leave sid u s else (s, [])
    | None => (s, [])
    end in
  (set_sockets (delete sid (sockets s')) s', out).

Definition handle (f : Db.Faults) (sid : string) (ev : Client.Event)
    (s : Server) : Server * list Action :=
  match ev with
  | Client.userJoined u => on_userJoined sid u s
  | Client.getMessageHistory => on_getMessageHistory f sid s
  | Client.message u t ts => on_message f sid u t ts s
  | Client.typing u => on_typing sid u s
  | Client.stopTyping u => on_stopTyping sid u s
  | Client.ping => on_ping sid s
  | Client.userLeft u => on_userLeft sid u s
  | Client.disconnect => on_disconnect sid s
  end.

Definition is_uncaught (a : Action) : bool :=
  match a with Uncaught => true | _ => false end.

(** The handler ended in an uncaught exception: the process has exited. *)
Definition exited (out : list Action) : bool := existsb is_uncaught out.

(** A run of events, each on its socket, on a healthy database; the actions
    of all of them in order.  The run ends with the process: no event is
    served after an uncaught exception. *)
Fixpoint run (evs : list (string * Client.Event)) (s : Server)
  : Server * list Action :=
  match evs with
  | [] => (s, [])
  | (sid, ev) :: rest =>
      let '(s1, out1) := handle Db.healthy sid ev s in
      if exited out1 then (s1, out1)
      else
        let '(s2, out2) := run rest s1 in
        (s2, out1 ++ out2)
  end.

(** The emissions among some actions, and their number. *)
Definition emitted (out : list Action) : list Action :=
  filter (fun a => is_emit a = true) out.

Definition emissions (out : list Action) : nat := length (emitted out).

(** ** [POST /api/ai-chat] *)
Module Ai.

Record HistoryItem := mkItem { role : string; content : string }.

Record Request := mkRequest {
  prompt : Js.Value;
  history : option (list HistoryItem)
}.

(** What the OpenAI package does once called. *)
Inductive Outcome :=
| ConstructorThrows
| Unsupported                  (* neither chat.completions nor responses *)
| Rejects (message : string)   (* the call throws; the empty message is falsy *)
| Resolves (replyText : string).

Record Env := mkEnv {
  OPENAI_API_KEY : option string;
  OpenAIClient : bool;         (* whether [require('openai')] succeeded *)
  sdk : list HistoryItem → Outcome;   (* by the messages it is given *)
  now : Z                      (* the time value of [new Date()], a valid one *)
}.

Definition quote : string := String (ascii_of_nat 34) EmptyString.

(** The characters of a value that is a string. *)
Definition text_of (v : Js.Value) : string :=
  match v with Js.Str t => t | _ => "" end.

(** [prompt && typeof prompt === 'string'] *)
Definition usable_prompt (v : Js.Value) : bool :=
  Js.truthy v && Js.is_string v.

Definition demoReply (p : Js.Value) : string :=
  if usable_prompt p then
    "Demo AI: You said " +:+ quote +:+ Js.slice0 200 (text_of p) +:+ quote
  else "Demo AI: Hello! Provide a prompt to chat.".

(** The messages sent to the provider. *)
Definition compose (p : string) (h : option (list HistoryItem))
  : list HistoryItem :=
  mkItem "system" "You are a helpful AI assistant. Keep answers concise."
  :: match h with
     | Some l =>
         omap (fun m =>
                 if Js.nonempty (role m) && Js.nonempty (content m)
                 then Some (mkItem (role m) (Js.slice0 4000 (content m)))
                 else None) l
     | None => []
     end
  ++ [mkItem "user" (Js.slice0 4000 p)].

Definition has_key (e : Env) : bool :=
  match OPENAI_API_KEY e with
  | Some k => Js.nonempty k
  | None => false
  end.

Definition ai_chat (e : Env) (f : Db.Faults) (req : Request)
    (d : Db.Database) : Db.Database * list Action :=
  if negb (has_key e) then
    (d, [Respond 200 (reply (demoReply (prompt req)))])
  else if negb (OpenAIClient e) then
    (d, [Respond 400 (error "openai package not installed")])
  else
  if negb (Js.truthy (prompt req)) || negb (Js.is_string (prompt req)) then
    (d, [Respond 400 (error "Invalid prompt")])
  else
    match sdk e (compose (text_of (prompt req)) (history req)) with
    | ConstructorThrows =>
        (d, [Respond 500 (error "Failed to get AI reply")])
    | Unsupported =>
        (d, [Respond 500 (error
           "OpenAI client does not support responses/chat on this version")])
    | Rejects m =>
        (d, [Respond 502
               (error (if Js.nonempty m then m else "AI provider error"))])
    | Resolves replyText =>
        if Js.blank replyText then
          (d, [Respond 502 (error "AI provider returned empty response")])
        else
          (* the response is sent before the callbacks of the database
             run; the error of the INSERT is only logged *)
          let '(d', lastID) :=
            Db.insert (Db.stmt_err f) "AI" replyText (JsDate.iso (now e)) d in
          (d', [Respond 200 (reply replyText)] ++ ensureSchema f ++
               [Insert "AI" replyText (JsDate.iso (now e)) lastID])
    end.

(** The status of the response of a request. *)
Definition status_of (out : list Action) : option nat :=
  match out with
  | Respond st _ :: _ => Some st
  | _ => None
  end.

End Ai.

(** A [message] event is rejected: the sender gets an error, no INSERT
    reaches the database and nobody else hears of it. *)
Definition rejected (sid : string) (out : list Action) : Prop :=
  (∃ m, Emit (Socket sid) (Relay.error m) ∈ out)
  ∧ (∀ a, a ∈ out → is_insert a = false)
  ∧ sender_only sid out.

(** ** The history query, as the specification words it

    recent(limit): up to [limit] of the most recently inserted records, in
    descending insertion order. *)
Definition recent_by_insertion (limit : nat) (d : Db.Database) : list Db.Row :=
  take limit (reverse (Db.messages d)).

(** The order of the stored timestamps: bytewise, as SQLite compares TEXT. *)
Definition not_after (a b : Db.Row) : Prop :=
  String.leb (Db.timestamp a) (Db.timestamp b) = true.

Definition not_before (a b : Db.Row) : Prop := not_after b a.

(** ** Scenarios *)

(** Two sockets, A and B, connected to a fresh server. *)
Definition two_sockets : Server := connection "B" (connection "A" init).

(** A's message arrives first and declares a later time than B's. *)
Definition skewed_clocks : Server :=
  fst (run [("A", Client.message "alice" "first" (JsDate.Millis 2000));
            ("B", Client.message "bob" "second" (JsDate.Millis 1000))]
           two_sockets).

(** B has joined as bob; A has not joined. *)
Definition bob_joined : Server :=
  fst (handle Db.healthy "B" (Client.userJoined "bob") two_sockets).

(** A joins under the empty username. *)
Definition nameless_joined : Server :=
  fst (handle Db.healthy "A" (Client.userJoined "") two_sockets).

(** A joins as alice, joins again under the empty username, and goes. *)
Definition rejoined_nameless : Server :=
  fst (run [("A", Client.userJoined "alice"); ("A", Client.userJoined "");
            ("A", Client.disconnect)] two_sockets).

(** A joins as alice, joins again as bob, and goes; B has not joined. *)
Definition rejoined_beside_guest : Server :=
  fst (run [("A", Client.userJoined "alice"); ("A", Client.userJoined "bob");
            ("A", Client.disconnect)] two_sockets).

(** alice is marked typing. *)
Definition alice_typing : Server :=
  fst (handle Db.healthy "A" (Client.typing "alice") two_sockets).

(** The number of live sockets. *)
Definition liveSessions (s : Server) : nat := size (dom (sockets s)).

(** The event carries the username [u]: a join or a leave for it.  (A
    disconnect carries no name; it acts on the username of its socket.) *)
Definition names (u : string) (ev : Client.Event) : bool :=
  match ev with
  | Client.userJoined v | Client.userLeft v => String.eqb v u
  | _ => false
  end.

(** The name [u] is in the connected set and is the username of no live
    socket: nothing but an event that names it will take it out. *)
Definition stale (u : string) (s : Server) : Prop :=
  u ∈ connectedUsers s ∧ ∀ x, socket_username x s ≠ Some u.

(** No API key in the environment; the package is there and would answer. *)
Definition demo_env : Ai.Env :=
  Ai.mkEnv None true (fun _ => Ai.Resolves "pong") 1700000000000.

(** The same with a key. *)
Definition keyed_env : Ai.Env :=
  Ai.mkEnv (Some "sk-test") true (fun _ => Ai.Resolves "pong") 1700000000000.

(** A text of 300 characters. *)
Definition long_text : string := string_of_list_ascii (repeat "x"%char 300).

(** ** The states the server can be in

    From the start of the process: connections, events on sockets with any
    answers of the database, and requests to the AI route, which writes to the
    same store. *)
Inductive reachable : Server → Prop :=
| reach_init : reachable init
| reach_connection s sid : reachable s → reachable (connection sid s)
| reach_handle s f sid ev : reachable s → reachable (fst (handle f sid ev s))
| reach_ai s e f req :
    reachable s → reachable (set_db (fst (Ai.ai_chat e f req (db s))) s).

(** The ids of the store are 1, 2, ... in the order of the rows, and the
    counter is the number of rows. *)
Definition numbered (d : Db.Database) : Prop :=
  Db.seq d = Z.of_nat (length (Db.messages d))
  ∧ ∀ i r, Db.messages d !! i = Some r → Db.id r = Z.of_nat i + 1.

(** What the columns of a stored row can hold: [VARCHAR(50) NOT NULL] and
    [VARCHAR(255) NOT NULL] of the schema script, but for the text of a row
    under the username AI, and a timestamp that is the text of a date. *)
Definition well_formed_row (r : Db.Row) : Prop :=
  Db.username r ≠ "" ∧ Db.text r ≠ ""
  ∧ (String.length (Db.username r) ≤ 50)%nat
  ∧ ((String.length (Db.text r) ≤ 255)%nat ∨ Db.username r = "AI")
  ∧ ∃ t, Db.timestamp r = JsDate.iso t.

(** ** The HTTP routes [GET /api/health] and [GET /api/stats] *)
Module Api.

Inductive Json :=
| health (status timestamp : string) (connectedUsers : nat)
| stats (totalMessages connectedUsers : nat) (recentMessages : list Db.Row)
| failure (error : string).

Record Response := mkResponse { status : nat; body : Json }.

Definition get_health (now : Z) (s : Server) : Response :=
  mkResponse 200 (health "OK" (JsDate.iso now) (size (connectedUsers s))).

(** The LIMIT of the statistics query. *)
Definition statsLimit : nat := 10.

(** [db.get] of the count, then [db.all] of the ten latest rows; either
    error ends the request with 500. *)
Definition get_stats (count_err select_err : bool) (s : Server) : Response :=
  if count_err then mkResponse 500 (failure "Failed to fetch statistics")
  else
    match Db.all_recent select_err statsLimit (db s) with
    | None => mkResponse 500 (failure "Failed to fetch statistics")
    | Some recentMessages =>
        mkResponse 200
          (stats (length (Db.messages (db s))) (size (connectedUsers s))
                 recentMessages)
    end.

End Api.

(** ** The client script

    [String.prototype.trim], on the code units below 256. *)
Module JsText.

Fixpoint trimStart (s : string) : string :=
  match s with
  | EmptyString => EmptyString
  | String c r => if Js.is_space c then trimStart r else s
  end.

Fixpoint trimEnd (s : string) : string :=
  match s with
  | EmptyString => EmptyString
  | String c r =>
      match trimEnd r with
      | EmptyString => if Js.is_space c then EmptyString else String c EmptyString
      | r' => String c r'
      end
  end.

Definition trim (s : string) : string := trimEnd (trimStart s).

Definition first (s : string) : option ascii :=
  match s with
  | EmptyString => None
  | String c _ => Some c
  end.

Fixpoint last (s : string) : option ascii :=
  match s with
  | EmptyString => None
  | String c EmptyString => Some c
  | String _ r => last r
  end.

End JsText.

(** The page of one client: its globals, the browser events its listeners
    are registered for, and what the listeners send. *)
Module Page.

Record State := mkState {
  currentUsername : string;
  isConnected : bool;
  isTyping : bool;
  (** whether the timeout of [typingTimer] is pending *)
  typingTimer : bool
}.

Definition start : State := mkState "" false false false.

Inductive Event :=
| joinChat (value : string)                 (* the username input *)
| sendMessage (value : string) (aiMode : bool) (now : Z)
| input                                      (* a keystroke in the message box *)
| timeout                                    (* the typing timer fires *)
| visibilitychange (hidden : bool)
| beforeunload
| connect
| disconnect
| interval.                                  (* every 30 s *)

Inductive Effect :=
| Send (ev : Client.Event)                   (* [socket.emit] *)
| Fetch (prompt : string)                    (* POST /api/ai-chat *)
| Notify (message : string).

Definition on (ev : Event) (c : State) : State * list Effect :=
  match ev with
  | joinChat value =>
      let username := JsText.trim value in
      if negb (Js.nonempty username) then
        (c, [Notify "Please enter a username"])
      else if (50 <? String.length username)%nat then
        (c, [Notify "Username must be 50 characters or less"])
      else
        (mkState username (isConnected c) (isTyping c) (typingTimer c),
         [Send (Client.userJoined username); Send Client.getMessageHistory])
  | sendMessage value aiMode now =>
      let messageText := JsText.trim value in
      if negb (Js.nonempty messageText) || negb (isConnected c) then (c, [])
      else if (255 <? String.length messageText)%nat then
        (c, [Notify "Message must be 255 characters or less"])
      else if aiMode then (c, [Fetch messageText])
      else
        (c, [Send (Client.message (currentUsername c) messageText
                     (JsDate.Millis now))])
  | input =>
      if negb (isConnected c) then (c, [])
      else
        (mkState (currentUsername c) (isConnected c) true true,
         if isTyping c then []
         else [Send (Client.typing (currentUsername c))])
  | timeout =>
      if typingTimer c then
        (mkState (currentUsername c) (isConnected c) false false,
         [Send (Client.stopTyping (currentUsername c))])
      else (c, [])
  | visibilitychange hidden =>
      if hidden && isTyping c then
        (mkState (currentUsername c) (isConnected c) false (typingTimer c),
         [Send (Client.stopTyping (currentUsername c))])
      else (c, [])
  | beforeunload =>
      if Js.nonempty (currentUsername c) then
        (c, [Send (Client.userLeft (currentUsername c))])
      else (c, [])
  | connect =>
      (mkState (currentUsername c) true (isTyping c) (typingTimer c), [])
  | disconnect =>
      (mkState (currentUsername c) false (isTyping c) (typingTimer c), [])
  | interval =>
      if isConnected c then (c, [Send Client.ping]) else (c, [])
  end.

(** A run of browser events, and all it sends. *)
Fixpoint run (evs : list Event) (c : State) : State * list Effect :=
  match evs with
  | [] => (c, [])
  | ev :: rest =>
      let '(c1, out1) := on ev c in
      let '(c2, out2) := run rest c1 in
      (c2, out1 ++ out2)
  end.

(** The typing notices among what is sent: [true] for [typing], [false] for
    [stopTyping]. *)
Definition notice (e : Effect) : option bool :=
  match e with
  | Send (Client.typing _) => Some true
  | Send (Client.stopTyping _) => Some false
  | _ => None
  end.

Definition notices (out : list Effect) : list bool := omap notice out.

End Page.

(** The rows the actions report as inserted, in order. *)
Definition inserted (out : list Action) : list Db.Row :=
  omap (fun a => match a with
                 | Insert u t ts (Some i) => Some (Db.mkRow i u t ts)
                 | _ => None
                 end) out.

(** The events meant for the socket that asked: errors, the history, pong. *)
Definition private (e : Relay.Event) : bool :=
  match e with
  | Relay.error _ | Relay.messageHistory _ | Relay.pong => true
  | _ => false
  end.

(** The page has a username the way [joinChat] sets one. *)
Definition joined (c : Page.State) : Prop :=
  Page.currentUsername c ≠ ""
  ∧ (String.length (Page.currentUsername c) ≤ 50)%nat.

(** Of a list of typing notices, starting from a page that is typing or not:
    every [typing] comes when the page is not typing. *)
Fixpoint never_twice (typing_now : bool) (l : list bool) : Prop :=
  match l with
  | [] => True
  | true :: l' => typing_now = false ∧ never_twice true l'
  | false :: l' => never_twice false l'
  end.

(** * Properties *)

(** ** The model on concrete runs *)

Example iso_epoch : JsDate.iso 0 = "1970-01-01T00:00:00.000Z".
Proof. reflexivity. Qed.

Example iso_2023 : JsDate.iso 1700000000000 = "2023-11-14T22:13:20.000Z".
Proof. reflexivity. Qed.

Example iso_leap : JsDate.iso 951782400000 = "2000-02-29T00:00:00.000Z".
Proof. reflexivity. Qed.

Example iso_before_epoch : JsDate.iso (-1) = "1969-12-31T23:59:59.999Z".
Proof. reflexivity. Qed.

Example iso_max : JsDate.iso JsDate.maxTime = "+275760-09-13T00:00:00.000Z".
Proof. reflexivity. Qed.

(** The text of a date of the year 10000 is below that of the epoch: outside
    the years 0000 to 9999 the order of the texts is not that of the dates. *)
Example iso_order_beyond_9999 :
  JsDate.iso 253402300800000 = "+010000-01-01T00:00:00.000Z"
  ∧ String.ltb (JsDate.iso 253402300800000) (JsDate.iso 0) = true.
Proof. split; reflexivity. Qed.

(** alice joins, then bob: the counts are 1 and 2, and each notice goes to
    the others. *)
Example run_two_joins :
  snd (run [("A", Client.userJoined "alice"); ("B", Client.userJoined "bob")]
           two_sockets)
  = [Emit (Broadcast "A") (Relay.userJoined "alice"); Emit Io (Relay.userCount 1);
     Emit (Broadcast "B") (Relay.userJoined "bob"); Emit Io (Relay.userCount 2)].
Proof. vm_compute. reflexivity. Qed.

(** The first message of the store gets the id 1. *)
Example run_first_message :
  snd (handle Db.healthy "A" (Client.message "alice" "hi" (JsDate.Millis 2000))
         two_sockets)
  = [CreateTable false;
     Insert "alice" "hi" "1970-01-01T00:00:02.000Z" (Some 1);
     Emit Io (Relay.message 1 "alice" "hi" (Some 2000))].
Proof. reflexivity. Qed.

(** A text of 300 characters: an error for the sender, the store as before. *)
Example run_long_text :
  handle Db.healthy "A" (Client.message "alice" long_text (JsDate.Millis 2000))
    two_sockets
  = (two_sockets, [Emit (Socket "A") (Relay.error "Invalid message data")]).
Proof. reflexivity. Qed.

(** A timestamp that is no date: the callback throws before the INSERT, the
    process exits, and the ping that follows is not served. *)
Example run_bad_timestamp :
  run [("A", Client.message "alice" "hi" JsDate.Unparsable); ("B", Client.ping)]
    two_sockets
  = (exit two_sockets, [CreateTable false; Uncaught]).
Proof. reflexivity. Qed.

(** bob goes without a [userLeft]: the others are told, the count is 0. *)
Example run_disconnect :
  snd (handle Db.healthy "B" Client.disconnect bob_joined)
  = [Emit (Broadcast "B") (Relay.userLeft "bob"); Emit Io (Relay.userCount 0)].
Proof. vm_compute. reflexivity. Qed.

(** With a key and a database that refuses the INSERT, the reply is sent all
    the same. *)
Example run_ai_reply_unsaved :
  Ai.ai_chat keyed_env (Db.mkFaults false true)
    (Ai.mkRequest (Js.Str "ping") None) Db.empty
  = (Db.empty,
     [Respond 200 (reply "pong"); CreateTable false;
      Insert "AI" "pong" "2023-11-14T22:13:20.000Z" None]).
Proof. reflexivity. Qed.

(** ** Recipients *)

Lemma recipients_socket live sid x : x ∈ recipients live (Socket sid) → x = sid.
Proof.
  simpl. intros Hx. apply elem_of_intersection in Hx as [Hx _].
  by apply elem_of_singleton in Hx.
Qed.

Lemma sender_only_socket sid ev : sender_only sid [Emit (Socket sid) ev].
Proof.
  intros live a x Ha Hr. apply list_elem_of_singleton in Ha. subst a.
  by apply recipients_socket in Hr.
Qed.

Lemma nonempty_true u : Js.nonempty u = true ↔ u ≠ "".
Proof.
  unfold Js.nonempty. destruct (String.eqb_spec u ""); simpl; split; congruence.
Qed.

Lemma nonempty_false u : Js.nonempty u = false ↔ u = "".
Proof.
  unfold Js.nonempty. destruct (String.eqb_spec u ""); simpl; split; congruence.
Qed.

Lemma has_true u (S : gset string) : has u S = true ↔ u ∈ S.
Proof. unfold has. by rewrite bool_decide_eq_true. Qed.

Lemma has_false u (S : gset string) : has u S = false ↔ u ∉ S.
Proof. unfold has. by rewrite bool_decide_eq_false. Qed.

(** ** ping *)

(** C8. In every state and for every socket, [ping] answers [pong] to the
    sender alone and changes nothing: the connected set, the typing set, the
    username of the socket (and of every other socket) and the store are what
    they were, and no statement reaches the database. *)
Theorem ping_pong_no_side_effects (f : Db.Faults) (sid : string) (s : Server) :
  let s' := fst (handle f sid Client.ping s) in
  let out := snd (handle f sid Client.ping s) in
  out = [Emit (Socket sid) Relay.pong]
  ∧ sender_only sid out
  ∧ connectedUsers s' = connectedUsers s
  ∧ typingUsers s' = typingUsers s
  ∧ socket_username sid s' = socket_username sid s
  ∧ sockets s' = sockets s
  ∧ db s' = db s.
Proof.
  simpl. repeat split. apply sender_only_socket.
Qed.

(** ** join *)

(** C5. [userJoined] with any username adds it to the connected set (which
    stays as it is when the name was there), tells the others that the user
    joined and tells everybody, the joiner included, the size of the connected
    set; the two emissions do not depend on the name being new. *)
Theorem join_adds_and_broadcasts (f : Db.Faults) (sid u : string) (s : Server) :
  let s' := fst (handle f sid (Client.userJoined u) s) in
  let out := snd (handle f sid (Client.userJoined u) s) in
  connectedUsers s' = {[u]} ∪ connectedUsers s
  ∧ (u ∈ connectedUsers s → connectedUsers s' = connectedUsers s)
  ∧ socket_username sid s' = Some u
  ∧ out = [Emit (Broadcast sid) (Relay.userJoined u);
           Emit Io (Relay.userCount (size (connectedUsers s')))]
  ∧ (∀ live, recipients live (Broadcast sid) = live ∖ {[sid]}
             ∧ recipients live Io = live).
Proof.
  simpl. split; [done|]. split; [set_solver|]. split.
  - unfold socket_username. simpl. by rewrite lookup_insert_eq.
  - done.
Qed.

(** ** leave *)

(** C10. [userLeft] with a non-empty username removes that name from the
    connected set and the typing set, tells the others that it left and tells
    everybody the new count, whatever username the sending socket has, if any:
    the name is out of both sets afterwards, and no socket's username
    changes. *)
Theorem leave_evicts_any_username (f : Db.Faults) (sid u : string) (s : Server) :
  u ≠ "" →
  let s' := fst (handle f sid (Client.userLeft u) s) in
  let out := snd (handle f sid (Client.userLeft u) s) in
  connectedUsers s' = connectedUsers s ∖ {[u]}
  ∧ typingUsers s' = typingUsers s ∖ {[u]}
  ∧ (u ∉ connectedUsers s') ∧ (u ∉ typingUsers s')
  ∧ sockets s' = sockets s
  ∧ out = [Emit (Broadcast sid) (Relay.userLeft u);
           Emit Io (Relay.userCount (size (connectedUsers s')))]
  ∧ (∀ live, recipients live (Broadcast sid) = live ∖ {[sid]}
             ∧ recipients live Io = live).
Proof.
  intros Hu. apply nonempty_true in Hu. simpl. unfold on_userLeft.
  rewrite Hu. simpl. repeat split; set_solver.
Qed.

(** B is bob; A, which has no username, evicts bob. *)
Lemma leave_evicts_any_username_witness :
  "bob" ≠ ""
  ∧ socket_username "A" bob_joined = None
  ∧ "bob" ∉ connectedUsers
              (fst (handle Db.healthy "A" (Client.userLeft "bob") bob_joined)).
Proof.
  assert ("bob" ≠ "") as Hne by discriminate.
  split; [exact Hne|]. split; [reflexivity|].
  exact (proj1 (proj2 (proj2
    (leave_evicts_any_username Db.healthy "A" "bob" bob_joined Hne)))).
Defined.

(** ** message *)

Lemma invalid_message_iff u t :
  invalid_message u t = true
  ↔ u = "" ∨ t = "" ∨ (50 < String.length u)%nat ∨ (255 < String.length t)%nat.
Proof.
  unfold invalid_message.
  rewrite !orb_true_iff, !negb_true_iff, !nonempty_false, !Nat.ltb_lt. tauto.
Qed.

Lemma valid_message u t :
  u ≠ "" → t ≠ "" → (String.length u ≤ 50)%nat → (String.length t ≤ 255)%nat →
  invalid_message u t = false.
Proof.
  intros Hu Ht Hlu Hlt. apply not_true_is_false. rewrite invalid_message_iff.
  intros [?|[?|[?|?]]]; (done || lia).
Qed.

Lemma set_db_same s : set_db (db s) s = s.
Proof. by destruct s. Qed.

(** The three runs of the handler on a message that passes the guard. *)
Lemma on_message_valid f sid u t ts s :
  invalid_message u t = false →
  on_message f sid u t ts s =
    match JsDate.new ts with
    | None => (exit s, [CreateTable (Db.schema_err f); Uncaught])
    | Some tv =>
        if Db.stmt_err f then
          (s, [CreateTable (Db.schema_err f); Insert u t (JsDate.iso tv) None;
               Emit (Socket sid) (Relay.error "Failed to send message")])
        else
          let i := Db.seq (db s) + 1 in
          (set_db (Db.mkDatabase
                     (Db.messages (db s) ++ [Db.mkRow i u t (JsDate.iso tv)]) i) s,
           [CreateTable (Db.schema_err f); Insert u t (JsDate.iso tv) (Some i);
            Emit Io (Relay.message i u t (Some tv))])
    end.
Proof.
  intros Hv. unfold on_message. rewrite Hv.
  destruct (JsDate.new ts) as [tv|]; simpl; [|done].
  unfold Db.insert. destruct (Db.stmt_err f); simpl; [|done].
  by rewrite set_db_same.
Qed.

Ltac in_list :=
  repeat first [apply list_elem_of_here | apply list_elem_of_further].

(** Every way an emission splits a list of actions that is known in full. *)
Ltac split_prefix :=
  repeat match goal with
         | H : _ = ?pre ++ Emit _ _ :: _ |- _ =>
             is_var pre; destruct pre; simpl in H; simplify_eq
         end.

(** C2. A [message] event is rejected (an error goes to the sender, no INSERT
    is run, nobody else is reached) exactly when the username is empty, or
    the text is empty, or the username has more than 50 characters, or the
    text has more than 255; a rejected event leaves the server as it was. *)
Theorem invalid_message_rejected_iff (f : Db.Faults) (sid u t : string)
    (ts : JsDate.Input) (s : Server) :
  let s' := fst (handle f sid (Client.message u t ts) s) in
  let out := snd (handle f sid (Client.message u t ts) s) in
  (rejected sid out
   ↔ u = "" ∨ t = "" ∨ (50 < String.length u)%nat ∨ (255 < String.length t)%nat)
  ∧ (rejected sid out →
     s' = s ∧ out = [Emit (Socket sid) (Relay.error "Invalid message data")]).
Proof.
  simpl. rewrite <- invalid_message_iff.
  destruct (invalid_message u t) eqn:Hv.
  - unfold on_message. rewrite Hv. simpl. split; [|done].
    split; [done|]. intros _. split; [|split].
    + eexists. apply list_elem_of_singleton. reflexivity.
    + intros a Ha. apply list_elem_of_singleton in Ha. by subst a.
    + apply sender_only_socket.
  - rewrite (on_message_valid _ _ _ _ _ _ Hv).
    destruct (JsDate.new ts) as [tv|]; [destruct (Db.stmt_err f)|]; simpl.
    + split; [split; [|discriminate]|]; intros (_ & Hins & _); exfalso;
        specialize (Hins (Insert u t (JsDate.iso tv) None));
        simpl in Hins; discriminate Hins; set_solver.
    + split; [split; [|discriminate]|]; intros (_ & Hins & _); exfalso;
        specialize (Hins (Insert u t (JsDate.iso tv) (Some (Db.seq (db s) + 1))));
        simpl in Hins; discriminate Hins; set_solver.
    + split; [split; [|discriminate]|]; intros ([m Hm] & _ & _); exfalso;
        set_solver.
Qed.

(** The [message] handler where it does what is asked of it.  For a
    [message] event whose username and text are non-empty and
    within 50 and 255 characters: every emission of the handler comes after
    the INSERT of the message; when the INSERT fails, the store is unchanged
    and the only emission is an error to the sender; when it succeeds, the row
    is in the store under the id the store gave, and the only emission is the
    message with that id, sent with [io.emit] to every live socket, the sender
    included.  The INSERT is run whenever the declared timestamp is a date. *)
Theorem message_persisted_before_broadcast (f : Db.Faults) (sid u t : string)
    (ts : JsDate.Input) (s : Server) :
  u ≠ "" → t ≠ "" → (String.length u ≤ 50)%nat → (String.length t ≤ 255)%nat →
  let s' := fst (handle f sid (Client.message u t ts) s) in
  let out := snd (handle f sid (Client.message u t ts) s) in
  (∀ pre to ev post, out = pre ++ Emit to ev :: post →
     ∃ iso r, Insert u t iso r ∈ pre)
  ∧ (∀ iso, Insert u t iso None ∈ out →
       db s' = db s
       ∧ emitted out = [Emit (Socket sid) (Relay.error "Failed to send message")]
       ∧ sender_only sid out)
  ∧ (∀ iso i, Insert u t iso (Some i) ∈ out →
       i = Db.seq (db s) + 1
       ∧ Db.messages (db s') = Db.messages (db s) ++ [Db.mkRow i u t iso]
       ∧ (∃ tv, JsDate.new ts = Some tv ∧ iso = JsDate.iso tv
                ∧ emitted out = [Emit Io (Relay.message i u t (JsDate.new ts))])
       ∧ (∀ live, recipients live Io = live))
  ∧ (∀ tv, JsDate.new ts = Some tv →
       ∃ r, Insert u t (JsDate.iso tv) r ∈ out
            ∧ (r = None ↔ Db.stmt_err f = true)).
Proof.
  intros Hu Ht Hlu Hlt. simpl.
  rewrite (on_message_valid _ _ _ _ _ _ (valid_message _ _ Hu Ht Hlu Hlt)).
  destruct (JsDate.new ts) as [tv|]; [destruct (Db.stmt_err f)|]; simpl.
  - split; [|split; [|split]].
    + intros pre to ev post H. split_prefix.
      exists (JsDate.iso tv), None. in_list.
    + intros iso _. split; [done|]. split; [done|].
      intros live a x Ha Hr.
      repeat (apply elem_of_cons in Ha as [->|Ha]); simpl in Hr; try done.
      * by apply recipients_socket in Hr.
      * by apply elem_of_nil in Ha.
    + intros iso i Hin. exfalso.
      repeat (apply elem_of_cons in Hin as [Hin|Hin]; [discriminate Hin|]).
      by apply elem_of_nil in Hin.
    + intros tv' [= <-]. exists None. split; [in_list|done].
  - split; [|split; [|split]].
    + intros pre to ev post H. split_prefix.
      exists (JsDate.iso tv), (Some (Db.seq (db s) + 1)). in_list.
    + intros iso Hin. exfalso.
      repeat (apply elem_of_cons in Hin as [Hin|Hin]; [discriminate Hin|]).
      by apply elem_of_nil in Hin.
    + intros iso i Hin.
      apply elem_of_cons in Hin as [Hin|Hin]; [discriminate Hin|].
      apply elem_of_cons in Hin as [Hin|Hin].
      * injection Hin as -> ->. split; [done|]. split; [done|].
        split; [|done]. by exists tv.
      * exfalso. apply elem_of_cons in Hin as [Hin|Hin]; [discriminate Hin|].
        by apply elem_of_nil in Hin.
    + intros tv' [= <-]. exists (Some (Db.seq (db s) + 1)).
      split; [in_list|]. split; discriminate.
  - split; [|split; [|split]].
    + intros pre to ev post H. split_prefix.
    + intros iso Hin. exfalso.
      repeat (apply elem_of_cons in Hin as [Hin|Hin]; [discriminate Hin|]).
      by apply elem_of_nil in Hin.
    + intros iso i Hin. exfalso.
      repeat (apply elem_of_cons in Hin as [Hin|Hin]; [discriminate Hin|]).
      by apply elem_of_nil in Hin.
    + discriminate.
Qed.

(** C1, where the code fails.  A [message] event whose username and text
    are non-empty and within 50 and 255 characters, but whose timestamp is
    no date (none given, a text that is no date, a number out of range): the
    schema statement is run and the callback then throws; no INSERT is run,
    nothing is emitted, not even an error to the sender, and the process
    exits: no socket is live any more, both sets are lost, and no later event
    is served. *)
Theorem valid_message_without_date_is_lost (f : Db.Faults) (sid u t : string)
    (ts : JsDate.Input) (s : Server) :
  u ≠ "" → t ≠ "" → (String.length u ≤ 50)%nat → (String.length t ≤ 255)%nat →
  JsDate.new ts = None →
  let s' := fst (handle f sid (Client.message u t ts) s) in
  let out := snd (handle f sid (Client.message u t ts) s) in
  out = [CreateTable (Db.schema_err f); Uncaught]
  ∧ (∀ a, a ∈ out → is_insert a = false)
  ∧ emitted out = []
  ∧ exited out = true
  ∧ s' = exit s
  ∧ Db.messages (db s') = Db.messages (db s)
  ∧ ∀ evs, run ((sid, Client.message u t ts) :: evs) s
           = (exit s, [CreateTable false; Uncaught]).
Proof.
  intros Hu Ht Hlu Hlt Hts. simpl.
  rewrite !(on_message_valid _ _ _ _ _ _ (valid_message _ _ Hu Ht Hlu Hlt)).
  rewrite Hts. simpl. split_and!; try done.
  intros a Ha.
  repeat (apply elem_of_cons in Ha as [->|Ha]; [done|]).
  by apply elem_of_nil in Ha.
Qed.

Lemma valid_message_without_date_is_lost_witness :
  "alice" ≠ "" ∧ "hi" ≠ ""
  ∧ JsDate.new JsDate.Unparsable = None
  ∧ handle Db.healthy "A" (Client.message "alice" "hi" JsDate.Unparsable)
      two_sockets
    = (exit two_sockets, [CreateTable false; Uncaught]).
Proof.
  assert ("alice" ≠ "") as H1 by discriminate.
  assert ("hi" ≠ "") as H2 by discriminate.
  assert (String.length "alice" ≤ 50)%nat as H3 by (simpl; lia).
  assert (String.length "hi" ≤ 255)%nat as H4 by (simpl; lia).
  split; [exact H1|]. split; [exact H2|]. split; [reflexivity|].
  pose proof (valid_message_without_date_is_lost Db.healthy "A" "alice" "hi"
                JsDate.Unparsable two_sockets H1 H2 H3 H4 eq_refl)
    as (Hout & _ & _ & _ & Hs & _).
  apply injective_projections; [exact Hs|exact Hout].
Defined.

(** ** The history *)

Section timestamp_order.

Lemma compare_lt_trans a b c :
  String.compare a b = Lt → String.compare b c = Lt → String.compare a c = Lt.
Proof.
  intros Hab Hbc.
  apply OrderedTypeEx.String_as_OT.cmp_lt in Hab, Hbc.
  apply OrderedTypeEx.String_as_OT.cmp_lt.
  eapply OrderedTypeEx.String_as_OT.lt_trans; eassumption.
Qed.

Lemma leb_trans a b c :
  String.leb a b = true → String.leb b c = true → String.leb a c = true.
Proof.
  unfold String.leb. intros Hab Hbc.
  destruct (String.compare a b) eqn:Eab; [| |discriminate].
  - apply String.compare_eq_iff in Eab. by subst.
  - destruct (String.compare b c) eqn:Ebc; [| |discriminate].
    + apply String.compare_eq_iff in Ebc. subst. by rewrite Eab.
    + by rewrite (compare_lt_trans _ _ _ Eab Ebc).
Qed.

Lemma ltb_leb a b : String.ltb a b = true → String.leb a b = true.
Proof. unfold String.ltb, String.leb. by destruct (String.compare a b). Qed.

Lemma not_ltb_leb a b : String.ltb a b = false → String.leb b a = true.
Proof.
  unfold String.ltb, String.leb. rewrite (String.compare_antisym b a).
  by destruct (String.compare a b).
Qed.

Lemma place_perm r l : Db.place r l ≡ₚ r :: l.
Proof.
  induction l as [|x l IH]; simpl; [done|].
  destruct (String.ltb _ _); [|done].
  rewrite IH. apply Permutation_swap.
Qed.

Lemma order_perm l : Db.order_by_timestamp_desc l ≡ₚ l.
Proof.
  induction l as [|x l IH]; simpl; [done|].
  by rewrite place_perm, IH.
Qed.

Lemma place_sorted r l :
  StronglySorted not_before l → StronglySorted not_before (Db.place r l).
Proof.
  induction 1 as [|x l Hl IH Hx]; simpl.
  - repeat constructor.
  - destruct (String.ltb _ _) eqn:E.
    + constructor; [done|].
      rewrite place_perm. constructor; [|done].
      by apply ltb_leb.
    + apply not_ltb_leb in E.
      constructor; [by constructor|].
      constructor; [done|].
      eapply Forall_impl; [exact Hx|].
      intros y Hy. unfold not_before, not_after in *.
      by eapply leb_trans.
Qed.

Lemma order_sorted l : StronglySorted not_before (Db.order_by_timestamp_desc l).
Proof.
  induction l as [|x l IH]; simpl; [constructor|]. by apply place_sorted.
Qed.

Lemma sorted_reverse l :
  StronglySorted not_before l → StronglySorted not_after (reverse l).
Proof.
  induction 1 as [|x l Hl IH Hx]; [constructor|].
  rewrite reverse_cons. apply StronglySorted_app.
  split; [|split; [done|repeat constructor]].
  intros a b Ha Hb. apply list_elem_of_singleton in Hb. subst b.
  rewrite elem_of_reverse in Ha.
  rewrite Forall_forall in Hx. exact (Hx a Ha).
Qed.

End timestamp_order.

Lemma recent_split limit d :
  Db.recent limit d ++ drop limit (Db.order_by_timestamp_desc (Db.messages d))
  = Db.order_by_timestamp_desc (Db.messages d).
Proof. apply take_drop. Qed.

Lemma recent_sorted limit d :
  StronglySorted not_before (Db.recent limit d)
  ∧ ∀ r x, r ∈ Db.recent limit d
           → x ∈ drop limit (Db.order_by_timestamp_desc (Db.messages d))
           → not_before r x.
Proof.
  pose proof (order_sorted (Db.messages d)) as Hs.
  rewrite <- (recent_split limit d) in Hs.
  apply StronglySorted_app in Hs as (Hcross & Hrows & _). by split.
Qed.

Lemma recent_length limit d :
  length (Db.recent limit d) = Nat.min limit (length (Db.messages d)).
Proof.
  unfold Db.recent. rewrite length_take.
  by rewrite (Permutation_length (order_perm (Db.messages d))).
Qed.

(** C3, the claim refuted: B's message was inserted last but declares the
    earlier time, and the query puts it last; the history the client gets is
    not the insertion order. *)
Lemma history_not_in_insertion_order :
  Db.recent 20 (db skewed_clocks) ≠ recent_by_insertion 20 (db skewed_clocks)
  ∧ Db.recent 1 (db skewed_clocks) ≠ recent_by_insertion 1 (db skewed_clocks)
  ∧ ∃ first second,
      Db.messages (db skewed_clocks) = [first; second]
      ∧ emitted (snd (handle Db.healthy "B" Client.getMessageHistory skewed_clocks))
        = [Emit (Socket "B") (Relay.messageHistory [second; first])].
Proof.
  split; [vm_compute; discriminate|]. split; [vm_compute; discriminate|].
  eexists _, _. split; vm_compute; reflexivity.
Qed.

(** C3, amended.  For every store and every limit, the query returns
    [min limit n] of the [n] records, those with the greatest stored
    timestamps, in descending order of timestamp (not of insertion).  The
    history handler changes nothing, runs no INSERT, reaches the requesting
    socket only, and sends it, when the query succeeds, the reverse of the 20
    rows of the query: at most 20 messages in ascending order of timestamp;
    when the query fails it sends an error instead.  The order is that of the
    stored text of the timestamp, which is not that of the dates for years
    outside 0000 to 9999. *)
Theorem history_by_timestamp (f : Db.Faults) (sid : string) (limit : nat)
    (s : Server) :
  let rows := Db.recent limit (db s) in
  let s' := fst (handle f sid Client.getMessageHistory s) in
  let out := snd (handle f sid Client.getMessageHistory s) in
  let history := reverse (Db.recent 20 (db s)) in
  length rows = Nat.min limit (length (Db.messages (db s)))
  ∧ StronglySorted not_before rows
  ∧ (∃ rest, rows ++ rest ≡ₚ Db.messages (db s)
             ∧ ∀ r x, r ∈ rows → x ∈ rest → not_before r x)
  ∧ s' = s
  ∧ sender_only sid out
  ∧ (∀ a, a ∈ out → is_insert a = false)
  ∧ emitted out =
      (if Db.stmt_err f
       then [Emit (Socket sid) (Relay.error "Failed to load message history")]
       else [Emit (Socket sid) (Relay.messageHistory history)])
  ∧ (length history ≤ 20)%nat
  ∧ StronglySorted not_after history.
Proof.
  simpl. split; [apply recent_length|].
  split; [apply recent_sorted|]. split.
  { exists (drop limit (Db.order_by_timestamp_desc (Db.messages (db s)))).
    split; [|apply recent_sorted].
    rewrite recent_split. apply order_perm. }
  split; [done|].
  unfold on_getMessageHistory, Db.all_recent, ensureSchema, historyLimit; simpl.
  split; [|split; [|split; [|split]]].
  - intros live a x Ha Hr. destruct (Db.stmt_err f);
      repeat (apply elem_of_cons in Ha as [->|Ha]); simpl in Hr; try done;
      try (by apply recipients_socket in Hr); by apply elem_of_nil in Ha.
  - intros a Ha. destruct (Db.stmt_err f);
      repeat (apply elem_of_cons in Ha as [->|Ha]); try done;
      by apply elem_of_nil in Ha.
  - by destruct (Db.stmt_err f).
  - rewrite length_reverse, recent_length. lia.
  - apply sorted_reverse, recent_sorted.
Qed.

(** ** typing *)

(** C4, the claim refuted: the empty username is never marked typing, and two
    [typing] events that carry it trigger no broadcast at all; nor do two
    [typing] events for a name that is marked typing already. *)
Lemma empty_username_never_typing :
  emissions (snd (run [("A", Client.typing ""); ("A", Client.typing "")]
                      two_sockets)) = 0%nat
  ∧ has "" (typingUsers two_sockets) = false
  ∧ has "" (typingUsers (fst (handle Db.healthy "A" (Client.typing "")
                                     two_sockets))) = false
  ∧ emissions (snd (run [("A", Client.typing "alice");
                         ("A", Client.typing "alice")] alice_typing)) = 0%nat.
Proof. repeat split; vm_compute; reflexivity. Qed.

(** C4, amended.  For every non-empty username [u], in every state:
    [typing] adds [u] to the typing set and tells the other sockets exactly
    when [u] was not in the set, and does nothing otherwise; [stopTyping]
    removes [u] and tells the other sockets exactly when [u] was in the set,
    and does nothing otherwise; a [typing] event that follows another for [u],
    from whatever socket, is a no-op, so that two in succession trigger exactly
    one broadcast when [u] was not typing before.  With the empty username
    both events do nothing, in every state. *)
Theorem typing_broadcasts_on_change (f : Db.Faults) (sid sid' u : string)
    (s : Server) :
  u ≠ "" →
  let s1 := fst (handle f sid (Client.typing u) s) in
  let out1 := snd (handle f sid (Client.typing u) s) in
  let s2 := fst (handle f sid (Client.stopTyping u) s) in
  let out2 := snd (handle f sid (Client.stopTyping u) s) in
  (u ∉ typingUsers s →
     s1 = set_typing ({[u]} ∪ typingUsers s) s
     ∧ out1 = [Emit (Broadcast sid) (Relay.typing u)])
  ∧ (u ∈ typingUsers s → s1 = s ∧ out1 = [])
  ∧ (u ∈ typingUsers s →
       s2 = set_typing (typingUsers s ∖ {[u]}) s
       ∧ out2 = [Emit (Broadcast sid) (Relay.stopTyping u)])
  ∧ (u ∉ typingUsers s → s2 = s ∧ out2 = [])
  ∧ handle f sid' (Client.typing u) s1 = (s1, [])
  ∧ (u ∉ typingUsers s →
       emissions (snd (run [(sid, Client.typing u); (sid', Client.typing u)] s))
       = 1%nat)
  ∧ (∀ live, recipients live (Broadcast sid) = live ∖ {[sid]})
  ∧ handle f sid (Client.typing "") s = (s, [])
  ∧ handle f sid (Client.stopTyping "") s = (s, []).
Proof.
  intros Hu. apply nonempty_true in Hu. simpl.
  unfold on_typing, on_stopTyping. rewrite Hu. simpl.
  destruct (has u (typingUsers s)) eqn:Hh; simpl.
  - pose proof (proj1 (has_true _ _) Hh) as Hin. rewrite ?Hh. simpl.
    repeat split; done.
  - pose proof (proj1 (has_false _ _) Hh) as Hout.
    assert (has u ({[u]} ∪ typingUsers s) = true) as Hin
      by (apply has_true; set_solver).
    rewrite ?Hh, ?Hin. simpl. rewrite ?Hin. simpl. repeat split; done.
Qed.

Lemma typing_broadcasts_on_change_witness :
  "alice" ≠ ""
  ∧ emissions (snd (run [("A", Client.typing "alice"); ("B", Client.typing "alice")]
                        two_sockets)) = 1%nat.
Proof.
  assert ("alice" ≠ "") as Hne by discriminate.
  split; [exact Hne|].
  refine (proj1 (proj2 (proj2 (proj2 (proj2 (proj2
    (typing_broadcasts_on_change Db.healthy "A" "B" "alice" two_sockets Hne))))))
    _).
  apply not_elem_of_empty.
Defined.

(** ** disconnect *)

(** C6, the claim refuted: A has joined under the empty username, which is in
    the connected set and is the username of its socket; its disconnect
    removes nothing and emits nothing. *)
Lemma empty_username_survives_disconnect :
  socket_username "A" nameless_joined = Some ""
  ∧ has "" (connectedUsers nameless_joined) = true
  ∧ snd (handle Db.healthy "A" Client.disconnect nameless_joined) = []
  ∧ has "" (connectedUsers
              (fst (handle Db.healthy "A" Client.disconnect nameless_joined)))
    = true.
Proof. repeat split; vm_compute; reflexivity. Qed.

(** C6, amended.  On the disconnect of a socket: when its username is a
    non-empty string, that name is removed from the connected set and from the
    typing set (which stay as they are where the name is absent), the other
    sockets are told that it left and every socket is told the new count;
    when the socket has no username, or the empty one, both sets are
    unchanged and nothing is emitted.  Either way the socket is live no more
    and the store is untouched. *)
Theorem disconnect_leaves_bound_username (f : Db.Faults) (sid : string)
    (s : Server) :
  let s' := fst (handle f sid Client.disconnect s) in
  let out := snd (handle f sid Client.disconnect s) in
  (∀ u, socket_username sid s = Some u → u ≠ "" →
     connectedUsers s' = connectedUsers s ∖ {[u]}
     ∧ typingUsers s' = typingUsers s ∖ {[u]}
     ∧ out = [Emit (Broadcast sid) (Relay.userLeft u);
              Emit Io (Relay.userCount (size (connectedUsers s')))]
     ∧ (u ∉ connectedUsers s → connectedUsers s' = connectedUsers s)
     ∧ (u ∉ typingUsers s → typingUsers s' = typingUsers s))
  ∧ (socket_username sid s = None ∨ socket_username sid s = Some "" →
     connectedUsers s' = connectedUsers s
     ∧ typingUsers s' = typingUsers s
     ∧ out = [])
  ∧ sockets s' = delete sid (sockets s)
  ∧ db s' = db s
  ∧ (∀ live, recipients live (Broadcast sid) = live ∖ {[sid]}
             ∧ recipients live Io = live).
Proof.
  simpl. unfold on_disconnect.
  destruct (socket_username sid s) as [u|] eqn:Hu.
  - destruct (Js.nonempty u) eqn:Hne; simpl.
    + apply nonempty_true in Hne.
      split; [|split; [|done]].
      * intros ? [= <-] _. repeat split; set_solver.
      * intros [?|[= ->]]; done.
    + apply nonempty_false in Hne. subst u.
      split; [|done]. intros ? [= <-] ?. done.
  - simpl. split; [|done]. intros ? ?. done.
Qed.

(** ** join, again *)

(** C9, the claim refuted: after joining as alice and again under the empty
    username, the disconnect of A removes neither name; after joining as alice
    and again as bob beside a socket that has not joined, the count left
    behind does not exceed the number of live sockets; and alice is out of the
    set as soon as that other socket sends a leave for her. *)
Lemma rejoin_claim_fails :
  has "" (connectedUsers rejoined_nameless) = true
  ∧ has "alice" (connectedUsers rejoined_nameless) = true
  ∧ size (connectedUsers rejoined_beside_guest) = 1%nat
  ∧ liveSessions rejoined_beside_guest = 1%nat
  ∧ has "alice" (connectedUsers rejoined_beside_guest) = true
  ∧ has "alice" (connectedUsers
                   (fst (handle Db.healthy "B" (Client.userLeft "alice")
                                rejoined_beside_guest))) = false.
Proof. repeat split; vm_compute; reflexivity. Qed.

Lemma socket_username_insert sid x o s :
  socket_username x (set_sockets (<[sid := o]> (sockets s)) s)
  = if decide (sid = x) then o else socket_username x s.
Proof.
  unfold socket_username. simpl. rewrite lookup_insert.
  by destruct (decide (sid = x)).
Qed.

Lemma socket_username_delete sid x s :
  socket_username x (set_sockets (delete sid (sockets s)) s)
  = if decide (sid = x) then None else socket_username x s.
Proof.
  unfold socket_username. simpl. rewrite lookup_delete.
  by destruct (decide (sid = x)).
Qed.

(** An event that does not name a stale username leaves it stale, unless
    the process exits on it. *)
Lemma stale_step u f sid ev s :
  stale u s → names u ev = false →
  exited (snd (handle f sid ev s)) = false →
  stale u (fst (handle f sid ev s)).
Proof.
  intros [Hin Hfree] Hev Hlive.
  destruct ev as [v| |v t ts|v|v| |v|]; simpl in *.
  - apply String.eqb_neq in Hev. split; [set_solver|].
    intros x. rewrite (socket_username_insert sid x (Some v) (set_connected _ s)).
    destruct (decide (sid = x)); [congruence|apply Hfree].
  - done.
  - unfold on_message in *. destruct (invalid_message v t); [done|].
    simpl in *. destruct (JsDate.toISOString _); [|discriminate].
    by destruct (Db.insert _ _ _ _ _) as [d [i|]].
  - unfold on_typing. by destruct (_ && _).
  - unfold on_stopTyping. by destruct (_ && _).
  - done.
  - apply String.eqb_neq in Hev. unfold on_userLeft.
    destruct (Js.nonempty v); [|done]. split; [simpl; set_solver|apply Hfree].
  - unfold on_disconnect.
    destruct (socket_username sid s) as [w|] eqn:Hw.
    + assert (w ≠ u) as Hne by (intros ->; by apply (Hfree sid)).
      destruct (Js.nonempty w); simpl.
      * split; [set_solver|]. intros x.
        rewrite (socket_username_delete sid x
                   (set_typing _ (set_connected _ s))).
        destruct (decide (sid = x)); [done|apply Hfree].
      * split; [done|]. intros x. rewrite socket_username_delete.
        destruct (decide (sid = x)); [done|apply Hfree].
    + simpl. split; [done|]. intros x. rewrite socket_username_delete.
      destruct (decide (sid = x)); [done|apply Hfree].
Qed.

Lemma exited_app out1 out2 :
  exited (out1 ++ out2) = exited out1 || exited out2.
Proof. apply existsb_app. Qed.

Lemma stale_run u evs : ∀ s,
  stale u s → Forall (fun e => names u e.2 = false) evs →
  exited (snd (run evs s)) = false →
  stale u (fst (run evs s)).
Proof.
  induction evs as [|[sid ev] evs IH]; intros s Hs Hevs Hlive; [done|].
  apply Forall_cons in Hevs as [Hev Hevs]. simpl in *.
  pose proof (stale_step u Db.healthy sid ev s Hs Hev) as Hs1.
  destruct (handle Db.healthy sid ev s) as [s1 out1]. simpl in *.
  destruct (exited out1) eqn:E1; [simpl in Hlive; congruence|].
  specialize (IH s1 (Hs1 eq_refl) Hevs).
  destruct (run evs s1) as [s2 out2]. simpl in *.
  rewrite exited_app, E1 in Hlive. by apply IH.
Qed.

(** C9, amended.  A socket that has joined as [u1] joins again as [u2],
    another and non-empty name: no leave is done for [u1], which stays in the
    connected set, and only the username of the socket changes; the
    disconnect that follows removes [u2] and nothing else, tells the others
    that [u2] left, and leaves [u1] in the set although the socket is gone.
    Unless another live socket goes by [u1], the name then stays in the set
    through every run of events none of which is a join or a leave for [u1],
    for as long as the process lives (a run that ends in an uncaught exception
    ends the process, and the set with it).
    When the set held neither name before and counted no fewer names than
    there were other live sockets, the count it reports afterwards exceeds the
    number of live sockets. *)
Theorem rejoin_leaves_stale_username (f : Db.Faults) (sid u1 u2 : string)
    (s : Server) :
  u1 ≠ u2 → u2 ≠ "" →
  let s1 := fst (handle f sid (Client.userJoined u1) s) in
  let s2 := fst (handle f sid (Client.userJoined u2) s1) in
  let s3 := fst (handle f sid Client.disconnect s2) in
  let out3 := snd (handle f sid Client.disconnect s2) in
  socket_username sid s1 = Some u1
  ∧ connectedUsers s2 = {[u2]} ∪ connectedUsers s1
  ∧ u1 ∈ connectedUsers s2
  ∧ socket_username sid s2 = Some u2
  ∧ connectedUsers s3 = connectedUsers s2 ∖ {[u2]}
  ∧ u1 ∈ connectedUsers s3
  ∧ sockets s3 = delete sid (sockets s)
  ∧ out3 = [Emit (Broadcast sid) (Relay.userLeft u2);
            Emit Io (Relay.userCount (size (connectedUsers s3)))]
  ∧ ((∀ x, x ≠ sid → socket_username x s ≠ Some u1) →
     ∀ evs, Forall (fun e => names u1 e.2 = false) evs →
            exited (snd (run evs s3)) = false →
            u1 ∈ connectedUsers (fst (run evs s3)))
  ∧ (u1 ∉ connectedUsers s → u2 ∉ connectedUsers s →
     (size (dom (sockets s) ∖ {[sid]}) ≤ size (connectedUsers s))%nat →
     (liveSessions s3 < size (connectedUsers s3))%nat).
Proof.
  intros Hne Hu2. apply nonempty_true in Hu2.
  simpl. unfold on_disconnect, socket_username, liveSessions. simpl.
  rewrite !lookup_insert_eq, Hu2. simpl.
  rewrite insert_insert_eq, delete_insert_eq.
  repeat split; try done; try set_solver.
  - intros Hothers evs Hevs Hlive. apply stale_run; [|done|done].
    split; [simpl; set_solver|].
    intros x. unfold socket_username. simpl. rewrite lookup_delete.
    destruct (decide (sid = x)) as [<-|Hx]; [done|].
    apply (Hothers x). congruence.
  - intros H1 H2 Hsz.
    rewrite dom_delete_L.
    assert (({[u2]} ∪ ({[u1]} ∪ connectedUsers s)) ∖ {[u2]}
            = {[u1]} ∪ connectedUsers s) as -> by set_solver.
    rewrite (size_union (C:=gset string) {[u1]} (connectedUsers s)) by set_solver.
    rewrite (size_singleton (C:=gset string) u1). lia.
Qed.

Lemma rejoin_leaves_stale_username_witness :
  "alice" ≠ "bob" ∧ "bob" ≠ ""
  ∧ (liveSessions (fst (run [("A", Client.userJoined "alice");
                             ("A", Client.userJoined "bob");
                             ("A", Client.disconnect)] (connection "A" init)))
     < size (connectedUsers
               (fst (run [("A", Client.userJoined "alice");
                          ("A", Client.userJoined "bob");
                          ("A", Client.disconnect)] (connection "A" init)))))%nat.
Proof.
  assert ("alice" ≠ "bob") as H1 by discriminate.
  assert ("bob" ≠ "") as H2 by discriminate.
  split; [exact H1|]. split; [exact H2|].
  refine (proj2 (proj2 (proj2 (proj2 (proj2 (proj2 (proj2 (proj2 (proj2
    (rejoin_leaves_stale_username Db.healthy "A" "alice" "bob"
       (connection "A" init) H1 H2))))))))) _ _ _).
  - apply not_elem_of_empty.
  - apply not_elem_of_empty.
  - vm_compute. lia.
Defined.

(** ** The AI route *)

(** C7, the claim refuted: without an API key a request with no prompt, or
    with a number for a prompt, is answered 200 and not 400; and the reply to
    a good prompt is a success that no INSERT follows. *)
Lemma demo_mode_answers_200 :
  Ai.ai_chat demo_env Db.healthy (Ai.mkRequest Js.Undefined None) Db.empty
  = (Db.empty, [Respond 200 (reply "Demo AI: Hello! Provide a prompt to chat.")])
  ∧ Ai.status_of (snd (Ai.ai_chat demo_env Db.healthy
                         (Ai.mkRequest (Js.Num 7) None) Db.empty))
    = Some 200%nat
  ∧ ∃ r, Ai.ai_chat demo_env Db.healthy (Ai.mkRequest (Js.Str "hi") None)
           Db.empty
         = (Db.empty, [Respond 200 (reply r)]).
Proof.
  split; [reflexivity|]. split; [reflexivity|]. eexists. reflexivity.
Qed.

(** C7, amended.  Without an API key every request is answered 200 with a
    demo reply and nothing is stored.  With a key, the one response has status
    400 when the package is missing or the prompt is missing, empty or no
    string; 500 when the client cannot be built or offers neither API; 502
    when the call to the provider fails or its reply is blank; and otherwise
    200 with the reply, after which the INSERT of the reply under the username
    AI is run: when it fails the store is as it was, when it succeeds the row
    is appended, and the response is the same in both cases. *)
Theorem ai_chat_status (e : Ai.Env) (f : Db.Faults) (req : Ai.Request)
    (d : Db.Database) :
  let d' := fst (Ai.ai_chat e f req d) in
  let out := snd (Ai.ai_chat e f req d) in
  let ts := JsDate.iso (Ai.now e) in
  (Ai.has_key e = false →
     out = [Respond 200 (reply (Ai.demoReply (Ai.prompt req)))] ∧ d' = d)
  ∧ (Ai.has_key e = true →
     (Ai.OpenAIClient e = false ∨ Ai.usable_prompt (Ai.prompt req) = false →
        ∃ m, out = [Respond 400 (error m)] ∧ d' = d)
     ∧ (Ai.OpenAIClient e = true → Ai.usable_prompt (Ai.prompt req) = true →
        match Ai.sdk e (Ai.compose (Ai.text_of (Ai.prompt req)) (Ai.history req)) with
        | Ai.ConstructorThrows | Ai.Unsupported =>
            ∃ m, out = [Respond 500 (error m)] ∧ d' = d
        | Ai.Rejects _ => ∃ m, out = [Respond 502 (error m)] ∧ d' = d
        | Ai.Resolves r =>
            if Js.blank r then ∃ m, out = [Respond 502 (error m)] ∧ d' = d
            else
              ∃ lastID,
                out = [Respond 200 (reply r); CreateTable (Db.schema_err f);
                       Insert "AI" r ts lastID]
                ∧ (Db.stmt_err f = true → lastID = None ∧ d' = d)
                ∧ (Db.stmt_err f = false →
                   lastID = Some (Db.seq d + 1)
                   ∧ Db.messages d' =
                       Db.messages d ++ [Db.mkRow (Db.seq d + 1) "AI" r ts])
        end))
  ∧ (∀ f', head (snd (Ai.ai_chat e f' req d)) = head out)
  ∧ (∃ st b, head out = Some (Respond st b)).
Proof.
  simpl. unfold Ai.ai_chat, Ai.usable_prompt.
  destruct (Ai.has_key e); simpl.
  2: { split; [done|]. split; [discriminate|]. split; [done|]. by eexists _, _. }
  split; [discriminate|].
  destruct (Ai.OpenAIClient e); simpl.
  2: { split; [|split; [done|by eexists _, _]]. intros _.
       split; [by eexists|discriminate]. }
  destruct (Js.truthy (Ai.prompt req) && Js.is_string (Ai.prompt req)) eqn:Hp.
  2: { apply andb_false_iff in Hp.
       assert (negb (Js.truthy (Ai.prompt req))
               || negb (Js.is_string (Ai.prompt req)) = true) as ->.
       { destruct Hp as [-> | ->]; simpl; [done|apply orb_true_r]. }
       simpl. split; [|split; [done|by eexists _, _]]. intros _.
       split; [by eexists|discriminate]. }
  apply andb_true_iff in Hp as [-> ->]. simpl.
  destruct (Ai.sdk e _) as [| |m|r]; simpl.
  - split; [|split; [done|by eexists _, _]]. intros _.
    split; [intros [[=]|[=]]|]. intros _ _. by eexists.
  - split; [|split; [done|by eexists _, _]]. intros _.
    split; [intros [[=]|[=]]|]. intros _ _. by eexists.
  - split; [|split; [done|by eexists _, _]]. intros _.
    split; [intros [[=]|[=]]|]. intros _ _. by eexists.
  - destruct (Js.blank r); simpl.
    + split; [|split; [done|by eexists _, _]]. intros _.
      split; [intros [[=]|[=]]|]. intros _ _. by eexists.
    + unfold Db.insert.
      split; [|split; [intros f'; by destruct (Db.stmt_err f'), (Db.stmt_err f)|
                       destruct (Db.stmt_err f); by eexists _, _]].
      intros _. split; [intros [[=]|[=]]|]. intros _ _.
      destruct (Db.stmt_err f); simpl; eexists; (split; [reflexivity|]);
        split; intros; (done || discriminate).
Qed.

(** alice's message on a healthy database. *)
Lemma message_persisted_before_broadcast_witness :
  "alice" ≠ "" ∧ "hi" ≠ ""
  ∧ (String.length "alice" ≤ 50)%nat ∧ (String.length "hi" ≤ 255)%nat
  ∧ ∃ r, Insert "alice" "hi" "1970-01-01T00:00:02.000Z" r
           ∈ snd (handle Db.healthy "A"
                    (Client.message "alice" "hi" (JsDate.Millis 2000))
                    two_sockets)
         ∧ (r = None ↔ Db.stmt_err Db.healthy = true).
Proof.
  assert ("alice" ≠ "") as H1 by discriminate.
  assert ("hi" ≠ "") as H2 by discriminate.
  assert (String.length "alice" ≤ 50)%nat as H3 by (simpl; lia).
  assert (String.length "hi" ≤ 255)%nat as H4 by (simpl; lia).
  split; [exact H1|]. split; [exact H2|]. split; [exact H3|]. split; [exact H4|].
  exact (proj2 (proj2 (proj2
    (message_persisted_before_broadcast Db.healthy "A" "alice" "hi"
       (JsDate.Millis 2000) two_sockets H1 H2 H3 H4))) 2000 eq_refl).
Defined.

(** * More of the server and of the client script *)

(** ** What a handler touches *)

Ltac in_cases H :=
  repeat (apply elem_of_cons in H as [H|H];
          [try discriminate H; try (injection H as ? ?; subst)|]);
  try (by apply elem_of_nil in H).

(** The database after a handler: as before, or with one row more, that of a
    message that passed the guard, under the next id. *)
Lemma handle_db f sid ev s :
  db (fst (handle f sid ev s)) = db s
  ∨ ∃ u t tv,
      invalid_message u t = false
      ∧ db (fst (handle f sid ev s))
        = Db.mkDatabase
            (Db.messages (db s)
               ++ [Db.mkRow (Db.seq (db s) + 1) u t (JsDate.iso tv)])
            (Db.seq (db s) + 1).
Proof.
  destruct ev as [v| |v t ts|v|v| |v|]; simpl; try (by left).
  - destruct (invalid_message v t) eqn:Hv.
    + left. unfold on_message. by rewrite Hv.
    + rewrite (on_message_valid _ _ _ _ _ _ Hv).
      destruct (JsDate.new ts) as [tv|]; [|by left].
      destruct (Db.stmt_err f); [by left|]. right. by exists v, t, tv.
  - left. unfold on_typing. by destruct (_ && _).
  - left. unfold on_stopTyping. by destruct (_ && _).
  - left. unfold on_userLeft. by destruct (Js.nonempty v).
  - left. unfold on_disconnect.
    destruct (socket_username sid s) as [w|]; [|done].
    by destruct (Js.nonempty w).
Qed.

(** X1. Whatever the event and the answers of the database, the rows of the
    store afterwards are the rows before followed by the rows whose INSERT the
    handler reports as done: no handler changes or removes a stored row, and
    none but [message] adds one.  The same holds of the AI route. *)
Theorem store_gains_only_inserted_rows (f : Db.Faults) (sid : string)
    (ev : Client.Event) (s : Server) (e : Ai.Env) (req : Ai.Request) :
  let s' := fst (handle f sid ev s) in
  let out := snd (handle f sid ev s) in
  Db.messages (db s') = Db.messages (db s) ++ inserted out
  ∧ (length (inserted out) ≤ 1)%nat
  ∧ match ev with
    | Client.message _ _ _ => True
    | _ => db s' = db s ∧ inserted out = []
    end
  ∧ Db.messages (fst (Ai.ai_chat e f req (db s)))
    = Db.messages (db s) ++ inserted (snd (Ai.ai_chat e f req (db s))).
Proof.
  simpl. split; [|split; [|split]].
  - destruct ev as [v| |v t ts|v|v| |v|]; simpl;
      try (by rewrite app_nil_r).
    + unfold on_getMessageHistory, Db.all_recent.
      destruct (Db.stmt_err f); simpl; by rewrite app_nil_r.
    + destruct (invalid_message v t) eqn:Hv.
      * unfold on_message. rewrite Hv. simpl. by rewrite app_nil_r.
      * rewrite (on_message_valid _ _ _ _ _ _ Hv).
        destruct (JsDate.new ts) as [tv|]; [destruct (Db.stmt_err f)|]; simpl;
          by rewrite ?app_nil_r.
    + unfold on_typing. destruct (_ && _); simpl; by rewrite app_nil_r.
    + unfold on_stopTyping. destruct (_ && _); simpl; by rewrite app_nil_r.
    + unfold on_userLeft. destruct (Js.nonempty v); simpl; by rewrite app_nil_r.
    + unfold on_disconnect. destruct (socket_username sid s) as [w|];
        [destruct (Js.nonempty w)|]; simpl; by rewrite app_nil_r.
  - destruct ev as [v| |v t ts|v|v| |v|]; simpl; try lia.
    + unfold on_getMessageHistory, Db.all_recent.
      destruct (Db.stmt_err f); simpl; lia.
    + destruct (invalid_message v t) eqn:Hv.
      * unfold on_message. rewrite Hv. simpl. lia.
      * rewrite (on_message_valid _ _ _ _ _ _ Hv).
        destruct (JsDate.new ts) as [tv|]; [destruct (Db.stmt_err f)|]; simpl;
          lia.
    + unfold on_typing. destruct (_ && _); simpl; lia.
    + unfold on_stopTyping. destruct (_ && _); simpl; lia.
    + unfold on_userLeft. destruct (Js.nonempty v); simpl; lia.
    + unfold on_disconnect. destruct (socket_username sid s) as [w|];
        [destruct (Js.nonempty w)|]; simpl; lia.
  - destruct ev as [v| |v t ts|v|v| |v|]; simpl; try done.
    + unfold on_getMessageHistory, Db.all_recent.
      by destruct (Db.stmt_err f).
    + unfold on_typing. by destruct (_ && _).
    + unfold on_stopTyping. by destruct (_ && _).
    + unfold on_userLeft. by destruct (Js.nonempty v).
    + unfold on_disconnect. destruct (socket_username sid s) as [w|];
        [destruct (Js.nonempty w)|]; done.
  - unfold Ai.ai_chat.
    destruct (Ai.has_key e); simpl; [|by rewrite app_nil_r].
    destruct (Ai.OpenAIClient e); simpl; [|by rewrite app_nil_r].
    destruct (negb _ || negb _); simpl; [by rewrite app_nil_r|].
    destruct (Ai.sdk e _) as [| |m|r]; simpl; try (by rewrite app_nil_r).
    destruct (Js.blank r); simpl; [by rewrite app_nil_r|].
    unfold Db.insert. destruct (Db.stmt_err f); simpl; by rewrite ?app_nil_r.
Qed.




(** The emissions of a handler, one case per event. *)
Lemma handle_emits f sid ev s to e :
  Emit to e ∈ snd (handle f sid ev s) →
  (to = Socket sid ∧ private e = true)
  ∨ (to = Broadcast sid ∧ private e = false
     ∧ match e with Relay.userCount _ | Relay.message _ _ _ _ => False
       | _ => True end)
  ∨ (to = Io
     ∧ ((∃ i u t d, e = Relay.message i u t d)
        ∨ e = Relay.userCount (size (connectedUsers (fst (handle f sid ev s)))))).
Proof.
  destruct ev as [v| |v t ts|v|v| |v|]; simpl.
  - intros H. in_cases H; [right; left; done|right; right; split; [done|by right]].
  - unfold on_getMessageHistory, Db.all_recent.
    destruct (Db.stmt_err f); simpl; intros H; in_cases H; by left.
  - destruct (invalid_message v t) eqn:Hv.
    + unfold on_message. rewrite Hv. simpl. intros H. in_cases H. by left.
    + rewrite (on_message_valid _ _ _ _ _ _ Hv).
      destruct (JsDate.new ts) as [tv|]; [destruct (Db.stmt_err f)|]; simpl;
        intros H; in_cases H; [by left|].
      right; right. split; [done|]. left. by eexists _, _, _, _.
  - unfold on_typing. destruct (_ && _); simpl; intros H; in_cases H.
    right; left; done.
  - unfold on_stopTyping. destruct (_ && _); simpl; intros H; in_cases H.
    right; left; done.
  - intros H. in_cases H. by left.
  - unfold on_userLeft. destruct (Js.nonempty v); simpl; intros H; in_cases H;
      [right; left; done|right; right; split; [done|by right]].
  - unfold on_disconnect. destruct (socket_username sid s) as [w|];
      [destruct (Js.nonempty w)|]; simpl; intros H; in_cases H;
      [right; left; done|right; right; split; [done|by right]].
Qed.

(** X3. Of all a handler emits, the errors, the history and the pong go to
    the socket that sent the event and to it alone, and nothing else does:
    notices and messages are never answered to the sender only, errors and
    histories are never broadcast. *)
Theorem private_events_go_to_sender_only (f : Db.Faults) (sid : string)
    (ev : Client.Event) (s : Server) (to : Target) (e : Relay.Event) :
  let out := snd (handle f sid ev s) in
  (Emit to e ∈ out → (private e = true ↔ to = Socket sid))
  ∧ (Emit to e ∈ out → private e = true →
     ∀ live x, x ∈ recipients live to → x = sid).
Proof.
  simpl. split.
  - intros H. apply handle_emits in H as [[-> He]|[(-> & He & _)|[-> He]]].
    + done.
    + rewrite He. split; discriminate.
    + split; [|discriminate].
      destruct He as [(i & u & t & d & ->)| ->]; discriminate.
  - intros H Hp live x Hx.
    apply handle_emits in H as [[-> _]|[(-> & He & _)|[-> He]]].
    + by apply recipients_socket in Hx.
    + congruence.
    + destruct He as [(i & u & t & d & ->)| ->]; discriminate.
Qed.

(** X4. Every [userCount] a handler emits goes out with [io.emit] and carries
    the size the connected set has once the handler is done, which is the
    number [GET /api/health] reports from then on. *)
Theorem user_count_is_current_size (f : Db.Faults) (sid : string)
    (ev : Client.Event) (s : Server) (to : Target) (n : nat) (now : Z) :
  let s' := fst (handle f sid ev s) in
  let out := snd (handle f sid ev s) in
  Emit to (Relay.userCount n) ∈ out →
  to = Io ∧ n = size (connectedUsers s')
  ∧ Api.get_health now s'
    = Api.mkResponse 200 (Api.health "OK" (JsDate.iso now) n).
Proof.
  simpl. intros H.
  apply handle_emits in H as [[_ He]|[(_ & _ & He)|[-> He]]]; try done.
  destruct He as [(i & u & t & d & He)|He]; [discriminate|].
  injection He as ->. done.
Qed.

Lemma user_count_is_current_size_witness :
  Emit Io (Relay.userCount 1)
    ∈ snd (handle Db.healthy "A" (Client.userJoined "alice") two_sockets)
  ∧ Api.get_health 0
      (fst (handle Db.healthy "A" (Client.userJoined "alice") two_sockets))
    = Api.mkResponse 200 (Api.health "OK" "1970-01-01T00:00:00.000Z" 1).
Proof.
  assert (Emit Io (Relay.userCount 1)
            ∈ snd (handle Db.healthy "A" (Client.userJoined "alice")
                     two_sockets)) as H
    by (vm_compute; in_list).
  split; [exact H|].
  exact (proj2 (proj2 (user_count_is_current_size Db.healthy "A"
                         (Client.userJoined "alice") two_sockets Io 1 0 H))).
Defined.

(** ** What holds in every state the server can reach *)

Lemma reachable_run evs : ∀ s, reachable s → reachable (fst (run evs s)).
Proof.
  induction evs as [|[sid ev] evs IH]; intros s Hs; [done|]. simpl.
  pose proof (reach_handle s Db.healthy sid ev Hs) as H1.
  destruct (handle Db.healthy sid ev s) as [s1 out1].
  specialize (IH s1 H1). destruct (exited out1); [done|].
  by destruct (run evs s1) as [s2 out2].
Qed.

(** The database after a request to the AI route: as before, or with one row
    more, a reply that is not blank under the username AI. *)
Lemma ai_chat_db e f req d :
  fst (Ai.ai_chat e f req d) = d
  ∨ ∃ r, Js.blank r = false
         ∧ fst (Ai.ai_chat e f req d)
           = Db.mkDatabase
               (Db.messages d
                  ++ [Db.mkRow (Db.seq d + 1) "AI" r (JsDate.iso (Ai.now e))])
               (Db.seq d + 1).
Proof.
  unfold Ai.ai_chat.
  destruct (Ai.has_key e); simpl; [|by left].
  destruct (Ai.OpenAIClient e); simpl; [|by left].
  destruct (negb _ || negb _); simpl; [by left|].
  destruct (Ai.sdk e _) as [| |m|r]; simpl; try (by left).
  destruct (Js.blank r) eqn:Hr; simpl; [by left|].
  unfold Db.insert. destruct (Db.stmt_err f); simpl; [by left|].
  right. by exists r.
Qed.

Lemma numbered_append d u t ts :
  numbered d →
  numbered (Db.mkDatabase (Db.messages d ++ [Db.mkRow (Db.seq d + 1) u t ts])
                          (Db.seq d + 1)).
Proof.
  intros [Hseq Hid]. split; simpl.
  - rewrite length_app. simpl. lia.
  - intros i r Hi. apply lookup_app_Some in Hi as [Hi|[Hge Hi]].
    + by apply Hid.
    + apply list_lookup_singleton_Some in Hi as [Hi <-]. simpl. lia.
Qed.

Lemma reachable_numbered s : reachable s → numbered (db s).
Proof.
  induction 1 as [|s sid _ IH|s f sid ev _ IH|s e f req _ IH]; simpl.
  - split; [done|]. intros i r Hi. change (@nil Db.Row !! i = Some r) in Hi.
    by rewrite lookup_nil in Hi.
  - done.
  - destruct (handle_db f sid ev s) as [->|(u & t & tv & _ & ->)]; [done|].
    by apply numbered_append.
  - destruct (ai_chat_db e f req (db s)) as [->|(r & _ & ->)]; [done|].
    by apply numbered_append.
Qed.

(** X5. In every state the server can reach, the stored ids are 1, 2, ... in
    the order of insertion, so no two rows share an id; the count that
    [GET /api/stats] reports is the id given last; and the id of the next
    successful INSERT is above every stored one. *)
Theorem ids_count_the_rows (s : Server) :
  reachable s →
  numbered (db s)
  ∧ NoDup (Db.id <$> Db.messages (db s))
  ∧ (∀ select_err n c rows,
       Api.get_stats false select_err s
       = Api.mkResponse 200 (Api.stats n c rows) →
       Z.of_nat n = Db.seq (db s))
  ∧ (∀ u t ts d' i,
       Db.insert false u t ts (db s) = (d', Some i) →
       ∀ r, r ∈ Db.messages (db s) → Db.id r < i).
Proof.
  intros Hs. pose proof (reachable_numbered s Hs) as [Hseq Hid].
  split; [done|]. split; [|split].
  - apply NoDup_alt. intros i j x Hi Hj.
    apply list_lookup_fmap_Some in Hi as (ri & -> & Hi).
    apply list_lookup_fmap_Some in Hj as (rj & Heq & Hj).
    apply Hid in Hi, Hj. lia.
  - intros select_err n c rows. unfold Api.get_stats, Db.all_recent.
    destruct select_err; [discriminate|]. intros [= <- _ _]. lia.
  - intros u t ts d' i [= _ <-] r Hr.
    apply list_elem_of_lookup in Hr as [k Hk].
    pose proof (lookup_lt_Some _ _ _ Hk). apply Hid in Hk. lia.
Qed.

Lemma ids_count_the_rows_witness :
  reachable skewed_clocks
  ∧ NoDup (Db.id <$> Db.messages (db skewed_clocks)).
Proof.
  assert (reachable skewed_clocks) as H.
  { apply reachable_run.
    apply reach_connection, reach_connection, reach_init. }
  split; [exact H|].
  exact (proj1 (proj2 (ids_count_the_rows skewed_clocks H))).
Defined.

Lemma passes_guard u t :
  invalid_message u t = false →
  u ≠ "" ∧ t ≠ ""
  ∧ (String.length u ≤ 50)%nat ∧ (String.length t ≤ 255)%nat.
Proof.
  unfold invalid_message.
  rewrite !orb_false_iff, !negb_false_iff, !nonempty_true, !Nat.ltb_ge. tauto.
Qed.

Lemma blank_empty r : Js.blank r = false → r ≠ "".
Proof. by intros H ->. Qed.

(** X6. In every state the server can reach, every stored row has a
    non-empty username of at most 50 characters, a non-empty text, and the
    text of a date for a timestamp; the text has at most 255 characters
    unless the row is under the username AI, whose replies are stored at
    their full length. *)
Theorem stored_rows_well_formed (s : Server) :
  reachable s → Forall well_formed_row (Db.messages (db s)).
Proof.
  induction 1 as [|s sid _ IH|s f sid ev _ IH|s e f req _ IH]; simpl.
  - constructor.
  - done.
  - destruct (handle_db f sid ev s) as [->|(u & t & tv & Hv & ->)]; [done|].
    apply passes_guard in Hv as (Hu & Ht & Hlu & Hlt).
    simpl. apply Forall_app. split; [done|]. apply Forall_singleton.
    unfold well_formed_row. simpl. split_and!; try done.
    + by left.
    + by exists tv.
  - destruct (ai_chat_db e f req (db s)) as [->|(r & Hr & ->)]; [done|].
    simpl. apply Forall_app. split; [done|]. apply Forall_singleton.
    unfold well_formed_row. simpl. split_and!.
    + discriminate.
    + by apply blank_empty.
    + lia.
    + by right.
    + by eexists.
Qed.

Lemma stored_rows_well_formed_witness :
  reachable skewed_clocks
  ∧ Forall well_formed_row (Db.messages (db skewed_clocks)).
Proof.
  assert (reachable skewed_clocks) as H.
  { apply reachable_run.
    apply reach_connection, reach_connection, reach_init. }
  split; [exact H|].
  exact (stored_rows_well_formed skewed_clocks H).
Defined.

(** X7. In every state the server can reach, the empty username is not in
    the typing set (the connected set has no such guard: C6). *)
Theorem empty_username_never_marked_typing (s : Server) :
  reachable s → has "" (typingUsers s) = false.
Proof.
  intros Hs. apply has_false.
  induction Hs as [|s sid _ IH|s f sid ev _ IH|s e f req _ IH]; simpl.
  - set_solver.
  - done.
  - destruct ev as [v| |v t ts|v|v| |v|]; simpl; try done.
    + unfold on_message. destruct (invalid_message v t); [done|]. simpl.
      destruct (JsDate.toISOString _); [|done].
      by destruct (Db.insert _ _ _ _ _) as [d [i|]].
    + unfold on_typing. destruct (Js.nonempty v) eqn:Hv; [|done].
      apply nonempty_true in Hv.
      destruct (negb _); simpl; [set_solver|done].
    + unfold on_stopTyping. destruct (_ && _); simpl; [set_solver|done].
    + unfold on_userLeft. destruct (Js.nonempty v); simpl; [set_solver|done].
    + unfold on_disconnect. destruct (socket_username sid s) as [w|];
        [destruct (Js.nonempty w)|]; simpl; [set_solver|done|done].
  - done.
Qed.

Lemma empty_username_never_marked_typing_witness :
  reachable alice_typing
  ∧ has "" (typingUsers alice_typing) = false
  ∧ has "alice" (typingUsers alice_typing) = true.
Proof.
  assert (reachable alice_typing) as H.
  { apply reach_handle, reach_connection, reach_connection, reach_init. }
  split; [exact H|].
  split; [exact (empty_username_never_marked_typing alice_typing H)|].
  vm_compute. reflexivity.
Defined.

(** ** How the events compose *)

(** X8. For a non-empty username that is not marked typing, [typing] followed
    by [stopTyping], from whatever sockets, brings the server back to the
    state it was in, and the others hear one notice of each. *)
Theorem typing_then_stopTyping_restores (sid sid' u : string) (s : Server) :
  u ≠ "" → u ∉ typingUsers s →
  run [(sid, Client.typing u); (sid', Client.stopTyping u)] s
  = (s, [Emit (Broadcast sid) (Relay.typing u);
         Emit (Broadcast sid') (Relay.stopTyping u)]).
Proof.
  intros Hu Hn. apply nonempty_true in Hu. apply has_false in Hn.
  simpl. unfold on_typing. rewrite Hu, Hn. simpl.
  unfold on_stopTyping. simpl. rewrite Hu.
  assert (has u ({[u]} ∪ typingUsers s) = true) as ->
    by (apply has_true; set_solver).
  simpl. apply has_false in Hn.
  assert (({[u]} ∪ typingUsers s) ∖ {[u]} = typingUsers s) as Heq by set_solver.
  unfold set_typing. simpl. rewrite Heq. by destruct s.
Qed.

Lemma typing_then_stopTyping_restores_witness :
  "alice" ≠ ""
  ∧ fst (run [("A", Client.typing "alice"); ("B", Client.stopTyping "alice")]
             two_sockets) = two_sockets.
Proof.
  assert ("alice" ≠ "") as Hne by discriminate.
  split; [exact Hne|].
  rewrite (typing_then_stopTyping_restores "A" "B" "alice" two_sockets Hne);
    [reflexivity|].
  apply not_elem_of_empty.
Defined.

(** X9. A join under a new, non-empty username followed by a [userLeft] for
    it, from whatever socket, restores the connected set and the typing set,
    and the counts sent are the size plus one and the size; but the socket
    that joined keeps the username, so its disconnect announces the leave
    once more. *)
Theorem join_then_leave_restores_sets (f : Db.Faults) (sid sid' u : string)
    (s : Server) :
  u ≠ "" → u ∉ connectedUsers s → u ∉ typingUsers s →
  let s1 := fst (handle f sid (Client.userJoined u) s) in
  let s2 := fst (handle f sid' (Client.userLeft u) s1) in
  connectedUsers s2 = connectedUsers s
  ∧ typingUsers s2 = typingUsers s
  ∧ snd (handle f sid (Client.userJoined u) s)
      ++ snd (handle f sid' (Client.userLeft u) s1)
    = [Emit (Broadcast sid) (Relay.userJoined u);
       Emit Io (Relay.userCount (S (size (connectedUsers s))));
       Emit (Broadcast sid') (Relay.userLeft u);
       Emit Io (Relay.userCount (size (connectedUsers s)))]
  ∧ socket_username sid s2 = Some u
  ∧ snd (handle f sid Client.disconnect s2)
    = [Emit (Broadcast sid) (Relay.userLeft u);
       Emit Io (Relay.userCount (size (connectedUsers s)))].
Proof.
  intros Hu Hc Ht. apply nonempty_true in Hu. simpl.
  unfold on_userLeft. rewrite Hu. simpl.
  assert (({[u]} ∪ connectedUsers s) ∖ {[u]} = connectedUsers s) as Hc'
    by set_solver.
  assert (typingUsers s ∖ {[u]} = typingUsers s) as Ht' by set_solver.
  assert (size ({[u]} ∪ connectedUsers s) = S (size (connectedUsers s))) as Hs.
  { rewrite (size_union (C:=gset string) {[u]} (connectedUsers s))
      by set_solver.
    by rewrite (size_singleton (C:=gset string) u). }
  rewrite Hc', Ht', Hs. split; [done|]. split; [done|]. split; [done|].
  unfold on_disconnect, socket_username. simpl.
  rewrite lookup_insert_eq, Hu. simpl.
  assert (connectedUsers s ∖ {[u]} = connectedUsers s) as -> by set_solver.
  done.
Qed.

Lemma join_then_leave_restores_sets_witness :
  "carol" ≠ ""
  ∧ connectedUsers
      (fst (handle Db.healthy "B" (Client.userLeft "carol")
              (fst (handle Db.healthy "A" (Client.userJoined "carol")
                           bob_joined))))
    = connectedUsers bob_joined.
Proof.
  assert ("carol" ≠ "") as Hne by discriminate.
  split; [exact Hne|].
  refine (proj1 (join_then_leave_restores_sets Db.healthy "A" "B" "carol"
                   bob_joined Hne _ _)).
  - apply has_false. vm_compute. reflexivity.
  - apply not_elem_of_empty.
Defined.

(** X10. A page that has joined sends [userLeft] with its username when it
    is closed, and the disconnect follows: the leave is done twice, so the
    other sockets are told twice that the user left and everybody gets the
    same count twice. *)
Theorem closing_the_page_announces_twice (sid : string) (c : Page.State)
    (s : Server) :
  Page.currentUsername c ≠ "" →
  socket_username sid s = Some (Page.currentUsername c) →
  let u := Page.currentUsername c in
  let n := size (connectedUsers s ∖ {[u]}) in
  snd (Page.on Page.beforeunload c) = [Page.Send (Client.userLeft u)]
  ∧ snd (run [(sid, Client.userLeft u); (sid, Client.disconnect)] s)
    = [Emit (Broadcast sid) (Relay.userLeft u); Emit Io (Relay.userCount n);
       Emit (Broadcast sid) (Relay.userLeft u); Emit Io (Relay.userCount n)].
Proof.
  intros Hu Hs. apply nonempty_true in Hu. simpl. rewrite Hu. split; [done|].
  unfold on_userLeft. rewrite Hu. simpl.
  unfold on_disconnect, socket_username in *. simpl.
  destruct (sockets s !! sid) as [o|]; [|done]. subst o. rewrite Hu. simpl.
  assert (connectedUsers s ∖ {[Page.currentUsername c]}
            ∖ {[Page.currentUsername c]}
          = connectedUsers s ∖ {[Page.currentUsername c]}) as -> by set_solver.
  done.
Qed.

Lemma closing_the_page_announces_twice_witness :
  Page.currentUsername (Page.mkState "bob" true false false) ≠ ""
  ∧ snd (run [("B", Client.userLeft "bob"); ("B", Client.disconnect)]
             bob_joined)
    = [Emit (Broadcast "B") (Relay.userLeft "bob"); Emit Io (Relay.userCount 0);
       Emit (Broadcast "B") (Relay.userLeft "bob"); Emit Io (Relay.userCount 0)].
Proof.
  assert (Page.currentUsername (Page.mkState "bob" true false false) ≠ "")
    as Hne by discriminate.
  split; [exact Hne|].
  refine (eq_trans
            (proj2 (closing_the_page_announces_twice "B"
                      (Page.mkState "bob" true false false) bob_joined Hne _))
            _).
  - reflexivity.
  - vm_compute. reflexivity.
Defined.

(** ** A message and the history *)

Lemma order_newest r l : ∀ acc,
  (∀ x, x ∈ l → String.ltb (Db.timestamp x) (Db.timestamp r) = true) →
  foldr Db.place (r :: acc) l = r :: foldr Db.place acc l.
Proof.
  induction l as [|x l IH]; intros acc Hl; [done|]. simpl.
  rewrite IH by (intros y Hy; apply Hl; by right).
  simpl. rewrite (Hl x) by left. done.
Qed.

(** X11. When fewer than 20 rows are stored, a message that passes the guard,
    declares a date and is inserted is among the rows of the next history
    any socket asks for, which then has one row more than were stored. *)
Theorem sent_message_is_in_next_history (f f' : Db.Faults)
    (sid sid' u t : string) (ts : JsDate.Input) (tv : Z) (s : Server) :
  u ≠ "" → t ≠ "" → (String.length u ≤ 50)%nat → (String.length t ≤ 255)%nat →
  JsDate.new ts = Some tv → Db.stmt_err f = false → Db.stmt_err f' = false →
  (length (Db.messages (db s)) < 20)%nat →
  let s' := fst (handle f sid (Client.message u t ts) s) in
  ∃ rows,
    emitted (snd (handle f' sid' Client.getMessageHistory s'))
    = [Emit (Socket sid') (Relay.messageHistory rows)]
    ∧ Db.mkRow (Db.seq (db s) + 1) u t (JsDate.iso tv) ∈ rows
    ∧ length rows = S (length (Db.messages (db s))).
Proof.
  intros Hu Ht Hlu Hlt Hts Hf Hf' Hlen. simpl.
  rewrite (on_message_valid _ _ _ _ _ _ (valid_message _ _ Hu Ht Hlu Hlt)).
  rewrite Hts, Hf. simpl.
  unfold on_getMessageHistory, Db.all_recent. rewrite Hf'. simpl.
  eexists. split; [reflexivity|].
  unfold Db.recent, historyLimit. simpl.
  set (l := Db.messages (db s) ++ _).
  assert (length (Db.order_by_timestamp_desc l) = S (length (Db.messages (db s))))
    as Hl.
  { rewrite (Permutation_length (order_perm l)). unfold l.
    rewrite length_app. simpl. lia. }
  rewrite take_ge by lia. split.
  - apply elem_of_reverse. rewrite (order_perm l). unfold l.
    apply elem_of_app. right. by left.
  - by rewrite length_reverse.
Qed.

Lemma sent_message_is_in_next_history_witness :
  "carol" ≠ "" ∧ "hey" ≠ ""
  ∧ ∃ rows,
      emitted (snd (handle Db.healthy "A" Client.getMessageHistory
                      (fst (handle Db.healthy "B"
                              (Client.message "carol" "hey" (JsDate.Millis 1500))
                              skewed_clocks))))
      = [Emit (Socket "A") (Relay.messageHistory rows)]
      ∧ Db.mkRow 3 "carol" "hey" "1970-01-01T00:00:01.500Z" ∈ rows
      ∧ length rows = 3%nat.
Proof.
  assert ("carol" ≠ "") as H1 by discriminate.
  assert ("hey" ≠ "") as H2 by discriminate.
  split; [exact H1|]. split; [exact H2|].
  refine (sent_message_is_in_next_history Db.healthy Db.healthy "B" "A"
            "carol" "hey" (JsDate.Millis 1500) 1500 skewed_clocks
            H1 H2 _ _ eq_refl eq_refl eq_refl _);
    vm_compute; lia.
Defined.

(** X12. A message that passes the guard, is inserted and declares a time
    whose text is above every stored timestamp is the last row of the next
    history, the newest for the client. *)
Theorem latest_message_closes_history (f f' : Db.Faults)
    (sid sid' u t : string) (ts : JsDate.Input) (tv : Z) (s : Server) :
  u ≠ "" → t ≠ "" → (String.length u ≤ 50)%nat → (String.length t ≤ 255)%nat →
  JsDate.new ts = Some tv → Db.stmt_err f = false → Db.stmt_err f' = false →
  (∀ r, r ∈ Db.messages (db s) →
        String.ltb (Db.timestamp r) (JsDate.iso tv) = true) →
  let s' := fst (handle f sid (Client.message u t ts) s) in
  ∃ older,
    emitted (snd (handle f' sid' Client.getMessageHistory s'))
    = [Emit (Socket sid')
         (Relay.messageHistory
            (older ++ [Db.mkRow (Db.seq (db s) + 1) u t (JsDate.iso tv)]))]
    ∧ older = reverse (Db.recent 19 (db s)).
Proof.
  intros Hu Ht Hlu Hlt Hts Hf Hf' Hnew. simpl.
  rewrite (on_message_valid _ _ _ _ _ _ (valid_message _ _ Hu Ht Hlu Hlt)).
  rewrite Hts, Hf. simpl.
  unfold on_getMessageHistory, Db.all_recent. rewrite Hf'. simpl.
  eexists. split; [|reflexivity].
  unfold Db.recent, historyLimit, Db.order_by_timestamp_desc. simpl.
  rewrite foldr_app. simpl. rewrite order_newest by done.
  simpl. by rewrite reverse_cons.
Qed.

Lemma latest_message_closes_history_witness :
  "carol" ≠ "" ∧ "hey" ≠ ""
  ∧ ∃ older,
      emitted (snd (handle Db.healthy "A" Client.getMessageHistory
                      (fst (handle Db.healthy "B"
                              (Client.message "carol" "hey" (JsDate.Millis 5000))
                              skewed_clocks))))
      = [Emit (Socket "A")
           (Relay.messageHistory
              (older ++ [Db.mkRow 3 "carol" "hey" "1970-01-01T00:00:05.000Z"]))]
      ∧ older = reverse (Db.recent 19 (db skewed_clocks)).
Proof.
  assert ("carol" ≠ "") as H1 by discriminate.
  assert ("hey" ≠ "") as H2 by discriminate.
  split; [exact H1|]. split; [exact H2|].
  refine (latest_message_closes_history Db.healthy Db.healthy "B" "A"
            "carol" "hey" (JsDate.Millis 5000) 5000 skewed_clocks
            H1 H2 _ _ eq_refl eq_refl eq_refl _).
  - vm_compute. lia.
  - vm_compute. lia.
  - intros r Hr. vm_compute in Hr.
    repeat (apply elem_of_cons in Hr as [->|Hr]; [reflexivity|]).
    by apply elem_of_nil in Hr.
Defined.

(** ** The statistics route *)

(** X13. [GET /api/stats] answers 500 exactly when one of its two queries
    fails; otherwise it answers 200 with the number of stored rows, the size
    of the connected set and the ten rows with the latest timestamps, newest
    first: the first ten of the rows the history query returns. *)
Theorem stats_reports_latest_ten (count_err select_err : bool) (s : Server) :
  let r := Api.get_stats count_err select_err s in
  (Api.status r = 500%nat ↔ count_err = true ∨ select_err = true)
  ∧ (Api.status r = 200%nat ∨ Api.status r = 500%nat)
  ∧ (Api.status r = 500%nat →
     Api.body r = Api.failure "Failed to fetch statistics")
  ∧ (Api.status r = 200%nat →
     ∃ rows,
       Api.body r = Api.stats (length (Db.messages (db s)))
                      (size (connectedUsers s)) rows
       ∧ rows = take 10 (Db.recent historyLimit (db s))
       ∧ length rows = Nat.min 10 (length (Db.messages (db s)))
       ∧ StronglySorted not_before rows).
Proof.
  simpl. unfold Api.get_stats, Db.all_recent, Api.statsLimit.
  destruct count_err, select_err; simpl;
    (split; [split; [try discriminate; auto|intros [?|?]; done]|]);
    (split; [auto|]); (split; [try done|]); try discriminate.
  intros _. eexists. split; [reflexivity|].
  split; [|split].
  - unfold Db.recent, historyLimit. by rewrite take_take.
  - apply recent_length.
  - apply recent_sorted.
Qed.

(** ** The AI route: what is sent to the provider, and the demo reply *)

#[local] Arguments Js.slice0 : simpl never.






(** ** The client script *)

Lemma trimStart_spec s :
  ∃ a, s = a +:+ JsText.trimStart s ∧ Js.all_space a = true
       ∧ ∀ ch, JsText.first (JsText.trimStart s) = Some ch →
               Js.is_space ch = false.
Proof.
  induction s as [|c r (a & Hr & Ha & Hf)]; simpl.
  - exists "". by repeat split.
  - destruct (Js.is_space c) eqn:Hc.
    + exists (String c a). simpl. rewrite Hc, Ha.
      split; [exact (f_equal (String c) Hr)|done].
    + exists "". simpl. split; [done|]. split; [done|]. by intros ch [= <-].
Qed.

Lemma trimEnd_spec s :
  ∃ b, s = JsText.trimEnd s +:+ b ∧ Js.all_space b = true
       ∧ (∀ ch, JsText.last (JsText.trimEnd s) = Some ch →
                Js.is_space ch = false)
       ∧ (∀ ch, JsText.first s = Some ch → Js.is_space ch = false →
                JsText.first (JsText.trimEnd s) = Some ch).
Proof.
  induction s as [|c r (b & Hr & Hb & Hl & _)]; simpl.
  - exists "". by repeat split.
  - destruct (JsText.trimEnd r) as [|c' r'] eqn:E.
    + change (r = b) in Hr. subst b. destruct (Js.is_space c) eqn:Hc.
      * exists (String c r). simpl. rewrite Hc, Hb.
        split_and!; try done. intros ch [= <-] ?. congruence.
      * exists r. simpl. split_and!; try done. by intros ch [= <-].
    + exists b. split_and!; try done.
      exact (f_equal (String c) Hr).
Qed.

Lemma trim_spec s :
  (∃ a b, s = a +:+ JsText.trim s +:+ b
          ∧ Js.all_space a = true ∧ Js.all_space b = true)
  ∧ (∀ ch, JsText.first (JsText.trim s) = Some ch → Js.is_space ch = false)
  ∧ (∀ ch, JsText.last (JsText.trim s) = Some ch → Js.is_space ch = false).
Proof.
  unfold JsText.trim.
  destruct (trimStart_spec s) as (a & Ha & Hsa & Hf).
  destruct (trimEnd_spec (JsText.trimStart s)) as (b & Hb & Hsb & Hl & Hk).
  split_and!.
  - exists a, b. split; [|done]. by rewrite <- Hb.
  - intros ch Hch.
    destruct (JsText.trimStart s) as [|c r] eqn:E; [discriminate|].
    pose proof (Hf c eq_refl) as Hc. rewrite (Hk c eq_refl Hc) in Hch.
    by injection Hch as <-.
  - exact Hl.
Qed.

(** X16. [joinChat] strips the whitespace around what was typed and nothing
    else; when what is left is empty or longer than 50 characters it only
    shows a notice and the page stays as it was; otherwise that name becomes
    the username of the page and is sent in [userJoined], followed by the
    request for the history, and it is a name the guard of the server's
    [message] handler accepts. *)
Theorem joinChat_sends_a_trimmed_username (value : string) (c : Page.State) :
  let u := JsText.trim value in
  let c' := fst (Page.on (Page.joinChat value) c) in
  let out := snd (Page.on (Page.joinChat value) c) in
  (∃ a b, value = a +:+ u +:+ b
          ∧ Js.all_space a = true ∧ Js.all_space b = true)
  ∧ (∀ ch, JsText.first u = Some ch ∨ JsText.last u = Some ch →
           Js.is_space ch = false)
  ∧ (u = "" ∨ (50 < String.length u)%nat →
     c' = c ∧ ∃ m, out = [Page.Notify m])
  ∧ (u ≠ "" → (String.length u ≤ 50)%nat →
     Page.currentUsername c' = u
     ∧ out = [Page.Send (Client.userJoined u);
              Page.Send Client.getMessageHistory]
     ∧ ∀ t, t ≠ "" → (String.length t ≤ 255)%nat →
            invalid_message u t = false).
Proof.
  cbv zeta. destruct (trim_spec value) as (Hdec & Hf & Hl).
  split; [exact Hdec|]. split; [intros ch [?|?]; auto|].
  simpl. split.
  - intros [Hu|Hu].
    + rewrite (proj2 (nonempty_false _) Hu). simpl. split; [done|by eexists].
    + destruct (Js.nonempty (JsText.trim value)); simpl;
        [|split; [done|by eexists]].
      rewrite (proj2 (Nat.ltb_lt _ _) Hu). split; [done|by eexists].
  - intros Hu Hlen. rewrite (proj2 (nonempty_true _) Hu). simpl.
    rewrite (proj2 (Nat.ltb_ge _ _) Hlen). simpl. split; [done|].
    split; [done|]. intros t Ht Hlt. by apply valid_message.
Qed.

Lemma page_keeps_joined ev c : joined c → joined (fst (Page.on ev c)).
Proof.
  intros [Hu Hl].
  destruct ev as [v|v ai now| | |h| | | |]; simpl; try done.
  - destruct (Js.nonempty (JsText.trim v)) eqn:Hv; simpl; [|done].
    destruct (50 <? String.length (JsText.trim v))%nat eqn:Hlen; [done|].
    split; simpl; [by apply nonempty_true|by apply Nat.ltb_ge].
  - destruct (_ || _); [done|]. destruct (_ <? _)%nat; [done|].
    by destruct ai.
  - by destruct (negb _).
  - by destruct (Page.typingTimer c).
  - by destruct (_ && _).
  - by destruct (Js.nonempty _).
  - by destruct (Page.isConnected c).
Qed.

Lemma page_message ev c u t d :
  joined c → Page.Send (Client.message u t d) ∈ snd (Page.on ev c) →
  invalid_message u t = false ∧ ∃ now, d = JsDate.Millis now.
Proof.
  intros [Hu Hl].
  destruct ev as [v|v ai now| | |h| | | |]; simpl; intros H.
  - destruct (Js.nonempty (JsText.trim v)); simpl in H; [|in_cases H].
    destruct (_ <? _)%nat; in_cases H.
  - destruct (Js.nonempty (JsText.trim v)) eqn:Hv; simpl in H; [|in_cases H].
    destruct (Page.isConnected c); simpl in H; [|in_cases H].
    destruct (255 <? _)%nat eqn:Hlen; [in_cases H|].
    destruct ai; in_cases H.
    split; [|by eexists].
    apply valid_message; [done|by apply nonempty_true|done|by apply Nat.ltb_ge].
  - destruct (negb _); [in_cases H|]. destruct (Page.isTyping c); in_cases H.
  - destruct (Page.typingTimer c); in_cases H.
  - destruct (_ && _); in_cases H.
  - destruct (Js.nonempty _); in_cases H.
  - in_cases H.
  - in_cases H.
  - destruct (Page.isConnected c); in_cases H.
Qed.

(** X17. Once the page has a username set by [joinChat], every [message] it
    sends, through whatever run of browser events, has a text and a username
    the server's guard accepts and a timestamp that is the clock of the page:
    the server never answers it with Invalid message data. *)
Theorem page_messages_pass_the_guard (evs : list Page.Event) (c : Page.State)
    (u t : string) (d : JsDate.Input) :
  joined c →
  Page.Send (Client.message u t d) ∈ snd (Page.run evs c) →
  invalid_message u t = false
  ∧ (∃ now, d = JsDate.Millis now)
  ∧ ∀ f sid s,
      Emit (Socket sid) (Relay.error "Invalid message data")
        ∉ snd (handle f sid (Client.message u t d) s).
Proof.
  intros Hj Hin.
  assert (invalid_message u t = false ∧ ∃ now, d = JsDate.Millis now)
    as [Hv Hd].
  { revert c Hj Hin. induction evs as [|ev evs IH]; intros c Hj Hin.
    - by apply elem_of_nil in Hin.
    - simpl in Hin.
      pose proof (page_keeps_joined ev c Hj) as Hj1.
      pose proof (page_message ev c u t d Hj) as Hm.
      destruct (Page.on ev c) as [c1 out1]. simpl in *.
      specialize (IH c1 Hj1).
      destruct (Page.run evs c1) as [c2 out2]. simpl in *.
      apply elem_of_app in Hin as [Hin|Hin]; [by apply Hm|by apply IH]. }
  split; [done|]. split; [done|]. intros f sid s. simpl.
  rewrite (on_message_valid _ _ _ _ _ _ Hv).
  destruct (JsDate.new d) as [tv|]; [destruct (Db.stmt_err f)|]; simpl;
    intros H; in_cases H.
Qed.

Lemma page_messages_pass_the_guard_witness :
  joined (Page.mkState "bob" true false false)
  ∧ invalid_message "bob" "hi" = false.
Proof.
  assert (joined (Page.mkState "bob" true false false)) as Hj.
  { split; simpl; [discriminate|lia]. }
  split; [exact Hj|].
  refine (proj1 (page_messages_pass_the_guard
                   [Page.input; Page.sendMessage "  hi " false 1000]
                   (Page.mkState "bob" true false false)
                   "bob" "hi" (JsDate.Millis 1000) Hj _)).
  vm_compute. in_list.
Defined.

Ltac sent_cases H :=
  repeat (apply elem_of_cons in H as [H|H];
          [try discriminate H; simplify_eq|]);
  try (by apply elem_of_nil in H).

Lemma page_fetch ev c p :
  Page.Fetch p ∈ snd (Page.on ev c) → p ≠ "" ∧ (String.length p ≤ 255)%nat.
Proof.
  destruct ev as [v|v ai now| | |h| | | |]; simpl; intros H.
  - destruct (Js.nonempty (JsText.trim v)); simpl in H; [|sent_cases H].
    destruct (_ <? _)%nat; sent_cases H.
  - destruct (Js.nonempty (JsText.trim v)) eqn:Hv; simpl in H; [|sent_cases H].
    destruct (Page.isConnected c); simpl in H; [|sent_cases H].
    destruct (255 <? _)%nat eqn:Hlen; [sent_cases H|].
    destruct ai; sent_cases H.
    split; [by apply nonempty_true|by apply Nat.ltb_ge].
  - destruct (negb _); [sent_cases H|]. destruct (Page.isTyping c); sent_cases H.
  - destruct (Page.typingTimer c); sent_cases H.
  - destruct (_ && _); sent_cases H.
  - destruct (Js.nonempty _); sent_cases H.
  - sent_cases H.
  - sent_cases H.
  - destruct (Page.isConnected c); sent_cases H.
Qed.

(** X18. Every prompt the page posts to the AI route, through whatever run of
    browser events, is a non-empty string of at most 255 characters; with an
    API key and the package installed, the route never answers it 400. *)
Theorem page_prompts_are_usable (evs : list Page.Event) (c : Page.State)
    (p : string) :
  Page.Fetch p ∈ snd (Page.run evs c) →
  p ≠ "" ∧ (String.length p ≤ 255)%nat
  ∧ Ai.usable_prompt (Js.Str p) = true
  ∧ ∀ e f d,
      Ai.has_key e = true → Ai.OpenAIClient e = true →
      ∃ st b,
        head (snd (Ai.ai_chat e f (Ai.mkRequest (Js.Str p) None) d))
        = Some (Respond st b)
        ∧ (st = 200 ∨ st = 500 ∨ st = 502)%nat.
Proof.
  intros Hin.
  assert (p ≠ "" ∧ (String.length p ≤ 255)%nat) as [Hp Hl].
  { revert c Hin. induction evs as [|ev evs IH]; intros c Hin.
    - by apply elem_of_nil in Hin.
    - simpl in Hin. pose proof (page_fetch ev c p) as Hm.
      destruct (Page.on ev c) as [c1 out1]. simpl in *.
      specialize (IH c1). destruct (Page.run evs c1) as [c2 out2]. simpl in *.
      apply elem_of_app in Hin as [Hin|Hin]; [by apply Hm|by apply IH]. }
  split; [done|]. split; [done|].
  assert (Js.nonempty p = true) as Hne by (by apply nonempty_true).
  split; [unfold Ai.usable_prompt; simpl; fold (Js.nonempty p);
          by rewrite Hne|].
  intros e f d Hk Hc. unfold Ai.ai_chat. rewrite Hk, Hc. simpl.
  fold (Js.nonempty p). rewrite Hne. simpl.
  destruct (Ai.sdk e _) as [| |m|r]; simpl; try (eexists _, _; split; [done|lia]).
  destruct (Js.blank r); simpl; [eexists _, _; split; [done|lia]|].
  destruct (Db.insert _ _ _ _ _) as [d' i]. simpl.
  eexists _, _. split; [done|lia].
Qed.

Lemma page_prompts_are_usable_witness :
  Page.Fetch "ping"
    ∈ snd (Page.run [Page.connect; Page.sendMessage " ping " true 1000]
             Page.start)
  ∧ Ai.usable_prompt (Js.Str "ping") = true.
Proof.
  assert (Page.Fetch "ping"
            ∈ snd (Page.run [Page.connect; Page.sendMessage " ping " true 1000]
                     Page.start)) as H
    by (vm_compute; in_list).
  split; [exact H|].
  exact (proj1 (proj2 (proj2 (page_prompts_are_usable _ _ _ H)))).
Defined.

(** ** The typing notices of a page *)

Lemma last_cons {A} (x d : A) l : List.last (x :: l) d = List.last l x.
Proof.
  revert x d. induction l as [|y l IH]; intros x d; [done|].
  change (List.last (x :: y :: l) d) with (List.last (y :: l) d).
  by rewrite (IH y d), (IH y x).
Qed.

Lemma last_default_app {A} (l1 l2 : list A) d :
  List.last (l1 ++ l2) d = List.last l2 (List.last l1 d).
Proof.
  revert d. induction l1 as [|x l1 IH]; intros d; [done|].
  rewrite <- app_comm_cons, !last_cons. apply IH.
Qed.

Lemma never_twice_app b l1 l2 :
  never_twice b l1 → never_twice (List.last l1 b) l2 →
  never_twice b (l1 ++ l2).
Proof.
  revert b. induction l1 as [|x l1 IH]; intros b H1 H2; [done|].
  rewrite last_cons in H2.
  destruct x; simpl in *.
  - destruct H1 as [-> H1]. split; [done|]. by apply IH.
  - by apply IH.
Qed.

Lemma never_twice_twice b pre post :
  ¬ never_twice b (pre ++ true :: true :: post).
Proof.
  revert b. induction pre as [|x pre IH]; intros b H.
  - simpl in H. destruct H as [_ [H _]]. discriminate.
  - destruct x; simpl in H; [destruct H as [_ H]|]; by apply IH in H.
Qed.

(** One listener: its notices fit the state before, and the state after is
    that of the last notice. *)
Lemma page_notice_step ev c :
  never_twice (Page.isTyping c) (Page.notices (snd (Page.on ev c)))
  ∧ Page.isTyping (fst (Page.on ev c))
    = List.last (Page.notices (snd (Page.on ev c))) (Page.isTyping c).
Proof.
  destruct ev as [v|v ai now| | |h| | | |]; simpl.
  - destruct (Js.nonempty _); simpl; [|done]. by destruct (_ <? _)%nat.
  - destruct (_ || _); [done|]. destruct (_ <? _)%nat; [done|]. by destruct ai.
  - destruct (negb _); [done|]. simpl. by destruct (Page.isTyping c).
  - by destruct (Page.typingTimer c).
  - by destruct (_ && _).
  - by destruct (Js.nonempty _).
  - done.
  - done.
  - by destruct (Page.isConnected c).
Qed.

Lemma page_notices_run evs : ∀ c,
  never_twice (Page.isTyping c) (Page.notices (snd (Page.run evs c)))
  ∧ Page.isTyping (fst (Page.run evs c))
    = List.last (Page.notices (snd (Page.run evs c))) (Page.isTyping c).
Proof.
  induction evs as [|ev evs IH]; intros c; [done|]. simpl.
  destruct (page_notice_step ev c) as [H1 E1].
  destruct (Page.on ev c) as [c1 out1]. simpl in *.
  destruct (IH c1) as [H2 E2].
  destruct (Page.run evs c1) as [c2 out2]. simpl in *.
  unfold Page.notices in *. rewrite omap_app. rewrite E1 in H2, E2.
  split; [by apply never_twice_app|].
  rewrite E2. by rewrite last_default_app.
Qed.

(** X19. Through whatever run of browser events, a page sends [typing] only
    when it is not typing: between two [typing] notices of a page there is a
    [stopTyping], and a page that starts out typing sends [stopTyping]
    first. *)
Theorem page_never_repeats_typing (evs : list Page.Event) (c : Page.State) :
  let sent := Page.notices (snd (Page.run evs c)) in
  never_twice (Page.isTyping c) sent
  ∧ (∀ pre post, sent ≠ pre ++ true :: true :: post)
  ∧ (Page.isTyping c = true → ∀ rest, sent ≠ true :: rest)
  ∧ Page.isTyping (fst (Page.run evs c)) = List.last sent (Page.isTyping c).
Proof.
  cbv zeta. destruct (page_notices_run evs c) as [H E].
  split; [done|]. split; [|split; [|done]].
  - intros pre post Heq. rewrite Heq in H. by apply never_twice_twice in H.
  - intros Ht rest Heq. rewrite Heq, Ht in H. simpl in H.
    destruct H as [H _]. discriminate.
Qed.
